(** * Descriptors: attribute access in Python

    A shallow embedding of the code cells of [pythess/descriptors/descriptors.ipynb]:
    the name-mangling example ([Mapping], [MappingSubclass]), the re-implementations
    of [classmethod], [staticmethod] and [property] ([MyClassmethod],
    [MyStaticmethod], [MyProperty]) and the validated score records
    ([BasketballGame], [NonNegativeField], [BasketballGameA], [BasketballGameB],
    [named_descriptors]).

    Python objects live in a heap; a computation threads the heap and may raise.
    An exception keeps the heap as it was when it was raised, as in Python. *)

From stdpp Require Import base strings gmap list.
From Stdlib Require Import ZArith Lia Ascii SpecFloat.

Local Open Scope Z_scope.

Set Warnings "-register-all".

(** ** Values and exceptions *)

(** The Python values the cells handle: [None], booleans, integers (unbounded),
    floats, strings, tuples and lists.  A float is given by its IEEE 754 content
    (zeros, infinities, NaN, finite numbers).

    A list is given by its items: two lists with the same items are the same
    value, and a list has no identity of its own.  This is what a program sees
    as long as the list it changes is not reached a second time through another
    name while it changes; the properties of [update] below say where that is
    so. *)
Inductive val : Type :=
| VNone
| VBool (b : bool)
| VInt (z : Z)
| VFloat (f : spec_float)
| VStr (s : string)
| VTuple (vs : list val)
| VList (vs : list val)
| VMethod (qualname : string) (self : nat).

(** The exceptions the cells raise themselves ([ValueError], [AttributeError]),
    and those the runtime raises under them. [ReferenceError] stands for the use
    of a reference that was never allocated; no Python program produces one. *)
Inductive exn : Type :=
| ValueError (msg : string)
| AttributeError (msg : string)
| KeyError (key : string)
| TypeError (msg : string)
| RecursionError
| ReferenceError.

(** ** Computations: state passing with exceptions *)

Definition M (St A : Type) : Type := St -> (exn + A) * St.

Definition ret {St A} (a : A) : M St A := fun s => (inr a, s).

Definition raise {St A} (e : exn) : M St A := fun s => (inl e, s).

Definition bind {St A B} (m : M St A) (k : A -> M St B) : M St B :=
  fun s => match m s with
           | (inr a, s') => k a s'
           | (inl e, s') => (inl e, s')
           end.

Declare Scope py_scope.
Delimit Scope py_scope with py.
Notation "x <- m ;; k" := (bind m (fun x => k))
  (at level 100, m at next level, right associativity) : py_scope.
Notation "m ;; k" := (bind m (fun _ => k))
  (at level 100, right associativity) : py_scope.
Local Open Scope py_scope.

(** [for x in xs: body(x)], over the items [xs] the iterable had when the loop
    started: the loop of the source sees these and no others unless [body]
    changes the very object it iterates over. *)
Fixpoint for_each {St A} (xs : list A) (body : A -> M St unit) : M St unit :=
  match xs with
  | [] => ret tt
  | x :: xs' => body x ;; for_each xs' body
  end.

(** The exception a finished computation raised, if it raised one. *)
Definition raised {St A} (r : (exn + A) * St) : option exn :=
  match fst r with inl e => Some e | inr _ => None end.

(** A finished computation with its result thrown away, as when a call is used
    as a statement. *)
Definition discard {St A} (r : (exn + A) * St) : (exn + unit) * St :=
  match r with
  | (inr _, s) => (inr tt, s)
  | (inl e, s) => (inl e, s)
  end.

(** ** [MyClassmethod] and [MyStaticmethod]

    A callable takes positional arguments and keyword arguments.  The three type
    parameters are the objects passed around (classes are objects too), the
    keyword dictionary and whatever a call produces (a value, or a computation
    when the function has effects). *)

Module MyClassmethod.
Section Wrapper.
Context {Obj Kw Res : Type}.

Record t := { func : list Obj -> Kw -> Res }.

Definition __init__ (func : list Obj -> Kw -> Res) : t := {| func := func |}.

(** [cls_wrapper] passes [owner], then its own positional arguments, then its
    keyword arguments, to [self.func]. *)
Definition __get__ (self : t) (instance : option Obj) (owner : Obj)
    : list Obj -> Kw -> Res :=
  let cls_wrapper := fun args kwargs => func self (owner :: args) kwargs in
  cls_wrapper.

End Wrapper.
Arguments t : clear implicits.
End MyClassmethod.

Module MyStaticmethod.
Section Wrapper.
Context {Obj Kw Res : Type}.

Record t := { func : list Obj -> Kw -> Res }.

Definition __init__ (func : list Obj -> Kw -> Res) : t := {| func := func |}.

Definition __get__ (self : t) (instance : option Obj) (owner : Obj)
    : list Obj -> Kw -> Res :=
  func self.

End Wrapper.
Arguments t : clear implicits.
End MyStaticmethod.

(** The notebook's reading of attribute access on a descriptor [d] stored in a
    class: [A.x] is [A.__dict__['x'].__get__(None, A)] and [a.x] is
    [type(a).__dict__['x'].__get__(a, type(a))]. *)
Definition class_access {D Inst Owner R} (get : D -> option Inst -> Owner -> R)
    (d : D) (A : Owner) : R :=
  get d None A.

Definition instance_access {D Inst Owner R} (get : D -> option Inst -> Owner -> R)
    (d : D) (a : Inst) (type_a : Owner) : R :=
  get d (Some a) type_a.

(** ** [MyProperty] *)

Module MyProperty.
Section Wrapper.
Context {St Inst Owner Val : Type}.

Record t := {
  fget : option (Inst -> M St Val);
  fset : option (Inst -> Val -> M St Val);
  fdel : option (Inst -> M St Val)
}.

(** [__init__(self, fget=None, fset=None, fdel=None)] *)
Definition __init__ (fget : option (Inst -> M St Val))
    (fset : option (Inst -> Val -> M St Val))
    (fdel : option (Inst -> M St Val)) : t :=
  {| fget := fget; fset := fset; fdel := fdel |}.

(** The result is the descriptor itself (left) when [instance is None]. *)
Definition __get__ (self : t) (instance : option Inst) (owner : Owner)
    : M St (t + Val) :=
  match instance with
  | None => ret (inl self)
  | Some instance =>
      match fget self with
      | None => raise (AttributeError "unreadable attribute")
      | Some fget => v <- fget instance ;; ret (inr v)
      end
  end.

Definition __set__ (self : t) (instance : Inst) (value : Val) : M St unit :=
  match fset self with
  | None => raise (AttributeError "can't set attribute")
  | Some fset => fset instance value ;; ret tt
  end.

Definition __delete__ (self : t) (instance : Inst) : M St unit :=
  match fdel self with
  | None => raise (AttributeError "can't delete attribute")
  | Some fdel => fdel instance ;; ret tt
  end.

(** [type(self)(fget, self.fset, self.fdel)], and likewise below. *)
Definition getter (self : t) (fget : Inst -> M St Val) : t :=
  __init__ (Some fget) (fset self) (fdel self).

Definition setter (self : t) (fset : Inst -> Val -> M St Val) : t :=
  __init__ (fget self) (Some fset) (fdel self).

Definition deleter (self : t) (fdel : Inst -> M St Val) : t :=
  __init__ (fget self) (fset self) (Some fdel).

End Wrapper.
Arguments t : clear implicits.
End MyProperty.

(** ** The heap

    Two kinds of objects are allocated: the [NonNegativeField] descriptors, whose
    [field] attribute [named_descriptors] assigns after the fact, and the
    instances of the classes, each with its [__dict__]. *)

Record NonNegativeField := { field : string }.

Record heap := {
  descs : list NonNegativeField;
  objs : list (gmap string val)
}.

Abbreviation py := (M heap).

Definition alloc_descriptor (d : NonNegativeField) : py nat :=
  fun h => (inr (length (descs h)), {| descs := descs h ++ [d]; objs := objs h |}).

Definition descriptor (r : nat) : py NonNegativeField :=
  fun h => match descs h !! r with
           | Some d => (inr d, h)
           | None => (inl ReferenceError, h)
           end.

(** [attr.field = name] on the descriptor object at [r]. *)
Definition set_field (r : nat) (name : string) : py unit :=
  fun h => match descs h !! r with
           | Some _ => (inr tt, {| descs := <[r := {| field := name |}]> (descs h);
                                   objs := objs h |})
           | None => (inl ReferenceError, h)
           end.

(** A new instance, with an empty [__dict__]. *)
Definition alloc_object : py nat :=
  fun h => (inr (length (objs h)), {| descs := descs h; objs := objs h ++ [∅] |}).

(** [instance.__dict__] *)
Definition instance_dict (l : nat) : py (gmap string val) :=
  fun h => match objs h !! l with
           | Some d => (inr d, h)
           | None => (inl ReferenceError, h)
           end.

(** [instance.__dict__[key] = v] *)
Definition dict_setitem (l : nat) (key : string) (v : val) : py unit :=
  fun h => match objs h !! l with
           | Some d => (inr tt, {| descs := descs h;
                                   objs := <[l := <[key := v]> d]> (objs h) |})
           | None => (inl ReferenceError, h)
           end.

(** [del instance.__dict__[key]] *)
Definition dict_delitem (l : nat) (key : string) : py unit :=
  fun h => match objs h !! l with
           | Some d =>
               match d !! key with
               | Some _ => (inr tt, {| descs := descs h;
                                       objs := <[l := delete key d]> (objs h) |})
               | None => (inl (KeyError key), h)
               end
           | None => (inl ReferenceError, h)
           end.

(** [type(v).__name__] *)
Definition type_of (v : val) : string :=
  match v with
  | VNone => "NoneType"
  | VBool _ => "bool"
  | VInt _ => "int"
  | VFloat _ => "float"
  | VStr _ => "str"
  | VTuple _ => "tuple"
  | VList _ => "list"
  | VMethod _ _ => "method"
  end.

(** What [value < 0] evaluates to, when the two are ordered: a boolean is the
    integer 0 or 1, a float is compared as IEEE 754 has it (NaN is below
    nothing, and neither zero is below 0). *)
Definition below_zero (v : val) : option bool :=
  match v with
  | VBool _ => Some false
  | VInt z => Some (z <? 0)
  | VFloat f => Some (SFltb f (S754_zero false))
  | _ => None
  end.

Definition unorderable (v : val) : exn :=
  TypeError ("'<' not supported between instances of '" +:+ type_of v +:+ "' and 'int'").

(** [value < 0]: [None], strings, tuples, lists and methods do not order
    against an [int]. *)
Definition lt_zero {St} (v : val) : M St bool :=
  match below_zero v with
  | Some b => ret b
  | None => raise (unorderable v)
  end.

(** ** Instances as the code sees them

    Inside a function, [self] is a reference together with the attribute
    operations of its type: [self.x], [self.x = v], [del self.x] and
    [self.f(args)]. *)

Record instance := {
  ref : nat;
  getattr : string -> py val;
  setattr : string -> val -> py unit;
  delattr : string -> py unit;
  call : string -> list val -> py val
}.

Module NonNegativeField.

(** [__init__(self, field='')] *)
Definition __init__ (field : option string) : NonNegativeField :=
  {| field := default "" field |}.

Definition __get__ {Owner} (self : NonNegativeField) (instance : option instance)
    (owner : Owner) : py val :=
  match instance with
  | None => raise (AttributeError "'NoneType' object has no attribute '__dict__'")
  | Some instance =>
      d <- instance_dict (ref instance) ;;
      match d !! field self with
      | Some v => ret v
      | None => raise (KeyError (field self))
      end
  end.

Definition __set__ (self : NonNegativeField) (instance : instance) (value : val)
    : py unit :=
  negative <- lt_zero value ;;
  if negative : bool then raise (ValueError "Positive values only!")
  else dict_setitem (ref instance) (field self) value.

End NonNegativeField.

(** ** Classes and attribute lookup *)

(** What a class [__dict__] holds under a name: a [NonNegativeField] (by
    reference, the object is mutable), a property, a plain function, or a value.
    The built-in [property] is taken to be [MyProperty], which the notebook
    presents as equivalent to it. *)
Inductive cattr : Type :=
| CField (r : nat)
| CProperty (p : MyProperty.t heap instance val)
| CFunction (qualname : string) (f : instance -> list val -> py val)
| CValue (v : val).

(** A class: its name and its [__dict__], in definition order. *)
Record klass := { k_name : string; k_dict : list (string * cattr) }.

Fixpoint dict_lookup (name : string) (d : list (string * cattr)) : option cattr :=
  match d with
  | [] => None
  | (k, a) :: d' => if String.eqb k name then Some a else dict_lookup name d'
  end.

(** Search of the class dictionaries along the method resolution order. *)
Fixpoint find_attr (mro : list klass) (name : string) : option cattr :=
  match mro with
  | [] => None
  | c :: mro' =>
      match dict_lookup name (k_dict c) with
      | Some a => Some a
      | None => find_attr mro' name
      end
  end.

Definition type_name (mro : list klass) : string :=
  match mro with
  | [] => "object"
  | c :: _ => k_name c
  end.

Definition no_attribute (mro : list klass) (name : string) : exn :=
  AttributeError ("'" +:+ type_name mro +:+ "' object has no attribute '" +:+ name +:+ "'").

(** The order of an instance attribute read: data descriptors of the class
    first, then the instance [__dict__], then the other class attributes, then
    [AttributeError] (the hook [__getattr__] comes after this, in [read_attr]).

    The resolution order is that of the classes the cells define.  [object],
    which ends every resolution order, is left out, and with it the names it
    gives every instance: [__class__], [__dict__], [__init__] and the like, all
    of the form [__x__].  The cells read and assign none of them but
    [instance.__dict__], which is [instance_dict]. *)
Definition getattr_ (mro : list klass) (self : instance) (name : string) : py val :=
  match find_attr mro name with
  | Some (CField r) =>
      d <- descriptor r ;;
      NonNegativeField.__get__ d (Some self) mro
  | Some (CProperty p) =>
      x <- MyProperty.__get__ p (Some self) mro ;;
      match x with
      | inr v => ret v
      | inl _ => raise (TypeError "descriptor returned from an instance")
      end
  | other =>
      d <- instance_dict (ref self) ;;
      match d !! name with
      | Some v => ret v
      | None =>
          match other with
          | Some (CFunction qualname _) => ret (VMethod qualname (ref self))
          | Some (CValue v) => ret v
          | _ => raise (no_attribute mro name)
          end
      end
  end.

(** [a.x = v]: the [__set__] of a data descriptor of the class, else the
    instance [__dict__].  The data descriptors of [object] ([__class__],
    [__dict__]) are left out, as in [getattr_]. *)
Definition setattr_ (mro : list klass) (self : instance) (name : string) (v : val)
    : py unit :=
  match find_attr mro name with
  | Some (CField r) =>
      d <- descriptor r ;;
      NonNegativeField.__set__ d self v
  | Some (CProperty p) => MyProperty.__set__ p self v
  | _ => dict_setitem (ref self) name v
  end.

(** [del a.x]: [NonNegativeField] defines no [__delete__]. *)
Definition delattr_ (mro : list klass) (self : instance) (name : string) : py unit :=
  match find_attr mro name with
  | Some (CField r) => raise (AttributeError "__delete__")
  | Some (CProperty p) => MyProperty.__delete__ p self
  | _ =>
      d <- instance_dict (ref self) ;;
      match d !! name with
      | Some _ => dict_delitem (ref self) name
      | None => raise (no_attribute mro name)
      end
  end.

(** [a.f(args)]: the attribute is read as above and called; of the things an
    attribute can be here only a function of the class is callable.  (An entry of
    the instance [__dict__] is data: none of the cells stores a method there.) *)
Definition call_ (mro : list klass) (self : instance) (name : string)
    (args : list val) : py val :=
  match find_attr mro name with
  | Some (CFunction _ f) =>
      d <- instance_dict (ref self) ;;
      match d !! name with
      | Some _ => raise (TypeError "object is not callable")
      | None => f self args
      end
  | _ =>
      getattr_ mro self name ;;
      raise (TypeError "object is not callable")
  end.

(** The instance at [l] of a class with resolution order [mro].  [depth] bounds
    how deeply attribute operations may nest (a setter assigning an attribute, a
    method calling a method); past it the runtime raises [RecursionError]. *)
Fixpoint instance_of (depth : nat) (mro : list klass) (l : nat) : instance :=
  match depth with
  | O => {| ref := l;
            getattr := fun _ => raise RecursionError;
            setattr := fun _ _ => raise RecursionError;
            delattr := fun _ => raise RecursionError;
            call := fun _ _ => raise RecursionError |}
  | S depth' =>
      let inner := instance_of depth' mro l in
      {| ref := l;
         getattr := getattr_ mro inner;
         setattr := setattr_ mro inner;
         delattr := delattr_ mro inner;
         call := call_ mro inner |}
  end.

(** [Cls(args)]: allocate, then run [__init__] found along the resolution
    order. *)
Definition new (depth : nat) (mro : list klass) (args : list val) : py nat :=
  l <- alloc_object ;;
  match find_attr mro "__init__" with
  | Some (CFunction _ init) => init (instance_of depth mro l) args ;; ret l
  | _ =>
      match args with
      | [] => ret l
      | _ => raise (TypeError "object() takes no arguments")
      end
  end.

(** ** Name mangling: [Mapping] and [MappingSubclass] *)

Fixpoint strip_underscores (s : string) : string :=
  match s with
  | String "_"%char s' => strip_underscores s'
  | _ => s
  end.

Definition ends_with_dunder (s : string) : bool :=
  String.eqb (String.substring (String.length s - 2)%nat 2 s) "__".

(** Inside the body of class [classname], an identifier with two leading
    underscores that does not end in two underscores is replaced by
    [_classname__ident], the class name without its leading underscores. *)
Definition mangle (classname ident : string) : string :=
  if String.prefix "__" ident && negb (ends_with_dunder ident)
  then match strip_underscores classname with
       | EmptyString => ident
       | stripped => "_" +:+ stripped +:+ ident
       end
  else ident.

(** [list(v)], also what a [for] loop runs over: lists and tuples give their
    items, a string its characters; [None], booleans, numbers and methods are
    not iterable. *)
Definition to_list (v : val) : option (list val) :=
  match v with
  | VList vs | VTuple vs => Some vs
  | VStr s => Some (map (fun c => VStr (String c EmptyString)) (String.list_ascii_of_string s))
  | _ => None
  end.

Definition iter (v : val) : py (list val) :=
  match to_list v with
  | Some vs => ret vs
  | None => raise (TypeError "object is not iterable")
  end.

(** [zip(keys, values)]: pairs, as many as the shorter argument has. *)
Definition zip_ (keys values : list val) : list val :=
  map (fun kv => VTuple [kv.1; kv.2]) (zip keys values).

(** [self.name.append(item)], for a list held in the instance [__dict__]: the
    list is read through [self] and the item is added at its end.  The list
    being a value here, the change is seen through [self.name] and through
    nothing else. *)
Definition list_append (self : instance) (name : string) (item : val) : py unit :=
  v <- getattr self name ;;
  match v with
  | VList vs => dict_setitem (ref self) name (VList (vs ++ [item]))
  | _ => raise (AttributeError "append")
  end.

Module Mapping.

(** The loop runs over the items [iterable] has when [update] is called.  The
    source asks the iterable for its next item at each turn, which makes a
    difference in one case: when the iterable is, or holds, the list
    [self.items_list] that the loop appends to. *)
Definition update (self : instance) (args : list val) : py val :=
  match args with
  | [iterable] =>
      items <- iter iterable ;;
      for_each items (fun item => list_append self "items_list" item) ;;
      ret VNone
  | _ => raise (TypeError "update() takes 2 positional arguments")
  end.

Definition __init__ (self : instance) (args : list val) : py val :=
  match args with
  | [iterable] =>
      setattr self "items_list" (VList []) ;;
      call self (mangle "Mapping" "__update") [iterable] ;;
      ret VNone
  | _ => raise (TypeError "__init__() takes 2 positional arguments")
  end.

(** The class body ends with [__update = update], so the private name is bound
    to the same function as [update]. *)
Definition cls : klass :=
  {| k_name := "Mapping";
     k_dict := [ ("__init__", CFunction "Mapping.__init__" __init__);
                 ("update", CFunction "Mapping.update" update);
                 (mangle "Mapping" "__update", CFunction "Mapping.update" update) ] |}.

Definition mro : list klass := [cls].

End Mapping.

Module MappingSubclass.

(** [zip(keys, values)] is taken over the items the two arguments have when
    [update] is called; as for [Mapping.update], the source differs when one of
    them is, or holds, [self.items_list]. *)
Definition update (self : instance) (args : list val) : py val :=
  match args with
  | [keys; values] =>
      ks <- iter keys ;;
      vs <- iter values ;;
      for_each (zip_ ks vs) (fun item => list_append self "items_list" item) ;;
      ret VNone
  | _ => raise (TypeError "update() takes 3 positional arguments")
  end.

Definition cls : klass :=
  {| k_name := "MappingSubclass";
     k_dict := [ ("update", CFunction "MappingSubclass.update" update) ] |}.

Definition mro : list klass := [cls; Mapping.cls].

End MappingSubclass.

Definition empty_heap : heap := {| descs := []; objs := [] |}.

Definition ints (zs : list Z) : val := VList (map VInt zs).

(** The notebook's own run of the two classes. *)
Definition mapping_cell (depth : nat) : py (val * val) :=
  m <- new depth Mapping.mro [ints [1; 2]] ;;
  call (instance_of depth Mapping.mro m) "update" [ints [3; 4]] ;;
  call (instance_of depth Mapping.mro m) "_Mapping__update" [ints [5; 6]] ;;
  m_items <- getattr (instance_of depth Mapping.mro m) "items_list" ;;
  ms <- new depth MappingSubclass.mro [ints [1; 2]] ;;
  call (instance_of depth MappingSubclass.mro ms) "update"
       [ints [3; 4]; VList [VStr "three"; VStr "four"]] ;;
  call (instance_of depth MappingSubclass.mro ms) "_Mapping__update" [ints [5; 6]] ;;
  ms_items <- getattr (instance_of depth MappingSubclass.mro ms) "items_list" ;;
  ret (m_items, ms_items).

(** ** [BasketballGame]: validation through properties *)

Module BasketballGame.

Definition points_getter (self : instance) : py val := getattr self "_points".

Definition points_setter (self : instance) (value : val) : py val :=
  negative <- lt_zero value ;;
  if negative : bool then raise (ValueError "Positive values only!")
  else setattr self "_points" value ;; ret VNone.

Definition rebounds_getter (self : instance) : py val := getattr self "_rebounds".

Definition rebounds_setter (self : instance) (value : val) : py val :=
  negative <- lt_zero value ;;
  if negative : bool then raise (ValueError "Positive values only!")
  else setattr self "_rebounds" value ;; ret VNone.

Definition steals_getter (self : instance) : py val := getattr self "_steals".

Definition steals_setter (self : instance) (value : val) : py val :=
  negative <- lt_zero value ;;
  if negative : bool then raise (ValueError "Positive values only!")
  else setattr self "_steals" value ;; ret VNone.

(** [@property] on the getter, then [@points.setter] on the setter. *)
Definition points : MyProperty.t heap instance val :=
  MyProperty.setter (MyProperty.__init__ (Some points_getter) None None) points_setter.

Definition rebounds : MyProperty.t heap instance val :=
  MyProperty.setter (MyProperty.__init__ (Some rebounds_getter) None None) rebounds_setter.

Definition steals : MyProperty.t heap instance val :=
  MyProperty.setter (MyProperty.__init__ (Some steals_getter) None None) steals_setter.

Definition __init__ (self : instance) (args : list val) : py val :=
  match args with
  | [points; rebounds; steals; blocks] =>
      setattr self "points" points ;;
      setattr self "rebounds" rebounds ;;
      setattr self "steals" steals ;;
      setattr self "blocks" blocks ;;
      ret VNone
  | _ => raise (TypeError "__init__() takes 5 positional arguments")
  end.

Definition cls : klass :=
  {| k_name := "BasketballGame";
     k_dict := [ ("__init__", CFunction "BasketballGame.__init__" __init__);
                 ("points", CProperty points);
                 ("rebounds", CProperty rebounds);
                 ("steals", CProperty steals) ] |}.

Definition mro : list klass := [cls].

End BasketballGame.

(** ** [BasketballGameA], [BasketballGameB] and [named_descriptors] *)

Module BasketballGameA.

Definition __init__ (self : instance) (args : list val) : py val :=
  match args with
  | [points; rebounds; steals] =>
      setattr self "points" points ;;
      setattr self "rebounds" rebounds ;;
      setattr self "steals" steals ;;
      ret VNone
  | _ => raise (TypeError "__init__() takes 4 positional arguments")
  end.

(** The class statement: the body creates the three descriptor objects. *)
Definition define : py klass :=
  points <- alloc_descriptor (NonNegativeField.__init__ (Some "points")) ;;
  rebounds <- alloc_descriptor (NonNegativeField.__init__ (Some "rebounds")) ;;
  steals <- alloc_descriptor (NonNegativeField.__init__ (Some "steals")) ;;
  ret {| k_name := "BasketballGameA";
         k_dict := [ ("points", CField points);
                     ("rebounds", CField rebounds);
                     ("steals", CField steals);
                     ("__init__", CFunction "BasketballGameA.__init__" __init__) ] |}.

End BasketballGameA.

(** [isinstance(attr, NonNegativeField)] holds of the [CField] entries only. *)
Definition named_descriptors (cls : klass) : py klass :=
  for_each (k_dict cls)
    (fun item => match item.2 with
                 | CField attr => set_field attr item.1
                 | _ => ret tt
                 end) ;;
  ret cls.

Module BasketballGameB.

Definition __init__ (self : instance) (args : list val) : py val :=
  match args with
  | [points; rebounds; steals] =>
      setattr self "points" points ;;
      setattr self "rebounds" rebounds ;;
      setattr self "steals" steals ;;
      ret VNone
  | _ => raise (TypeError "__init__() takes 4 positional arguments")
  end.

Definition body : py klass :=
  points <- alloc_descriptor (NonNegativeField.__init__ None) ;;
  rebounds <- alloc_descriptor (NonNegativeField.__init__ None) ;;
  steals <- alloc_descriptor (NonNegativeField.__init__ None) ;;
  ret {| k_name := "BasketballGameB";
         k_dict := [ ("points", CField points);
                     ("rebounds", CField rebounds);
                     ("steals", CField steals);
                     ("__init__", CFunction "BasketballGameB.__init__" __init__) ] |}.

(** The class statement under the [@named_descriptors] decorator. *)
Definition define : py klass :=
  cls <- body ;;
  named_descriptors cls.

End BasketballGameB.

(** ** Programs over a score record

    The statements a client of [BasketballGameA] or [BasketballGameB] runs:
    constructions, and reads and writes of the three validated fields of an
    object it has constructed. Each statement is run on its own, its exception
    caught, as the notebook does with [try]. *)

Inductive score : Type := Points | Rebounds | Steals.

Definition score_name (f : score) : string :=
  match f with
  | Points => "points"
  | Rebounds => "rebounds"
  | Steals => "steals"
  end.

Inductive stmt : Type :=
| New (points rebounds steals : val)
| Get (x : nat) (f : score)
| Put (x : nat) (f : score) (v : val).

Inductive outcome : Type :=
| Constructed (x : nat)
| Read (v : val)
| Written
| Raised (e : exn).

Definition exec (depth : nat) (cls : klass) (s : stmt) (h : heap) : outcome * heap :=
  match s with
  | New points rebounds steals =>
      match new depth [cls] [points; rebounds; steals] h with
      | (inr x, h') => (Constructed x, h')
      | (inl e, h') => (Raised e, h')
      end
  | Get x f =>
      match getattr (instance_of depth [cls] x) (score_name f) h with
      | (inr v, h') => (Read v, h')
      | (inl e, h') => (Raised e, h')
      end
  | Put x f v =>
      match setattr (instance_of depth [cls] x) (score_name f) v h with
      | (inr _, h') => (Written, h')
      | (inl e, h') => (Raised e, h')
      end
  end.

Fixpoint run (depth : nat) (cls : klass) (prog : list stmt) (h : heap)
    : list outcome * heap :=
  match prog with
  | [] => ([], h)
  | s :: prog' =>
      let (o, h') := exec depth cls s h in
      let (os, h'') := run depth cls prog' h' in
      (o :: os, h'')
  end.

(** The two classes as the notebook defines them, one after the other. *)
Definition notebook_classes : py (klass * klass) :=
  A <- BasketballGameA.define ;;
  B <- BasketballGameB.define ;;
  ret (A, B).

Definition score_cell : list stmt :=
  [ New (VInt 100) (VInt 30) (VInt 10); Get 0 Points; Get 0 Rebounds;
    Put 0 Points (VInt (-5)) ].

Definition score_cell_output : list outcome :=
  [ Constructed 0%nat; Read (VInt 100); Read (VInt 30);
    Raised (ValueError "Positive values only!") ].

(** The notebook's heap once both classes are defined, the two classes, and the
    heap after the cell that builds a game and tries a negative score. *)
Definition no_class : klass := {| k_name := "object"; k_dict := [] |}.

Definition notebook_heap : heap := snd (notebook_classes empty_heap).

Definition notebook_A : klass :=
  match fst (notebook_classes empty_heap) with
  | inr (A, _) => A
  | inl _ => no_class
  end.

Definition notebook_B : klass :=
  match fst (notebook_classes empty_heap) with
  | inr (_, B) => B
  | inl _ => no_class
  end.

Definition game_heap : heap := snd (run 1 notebook_A score_cell notebook_heap).

Definition game_dict : gmap string val :=
  <["steals" := VInt 10]> (<["rebounds" := VInt 30]> (<["points" := VInt 100]> ∅)).

(** [BasketballGameB] as its body leaves it, had the decorator been left out. *)
Definition undecorated_B : klass * heap :=
  match BasketballGameB.body empty_heap with
  | (inr B, h) => (B, h)
  | (inl _, h) => (no_class, h)
  end.

(** ** Vocabulary of the statements *)

(** The heap with the [__dict__] of the instance at [l] replaced. *)
Definition with_dict (h : heap) (l : nat) (d : gmap string val) : heap :=
  {| descs := descs h; objs := <[l := d]> (objs h) |}.

(** [v < 0] and [v >= 0]; both are false of a value that does not order against
    an [int], and of NaN. *)
Definition is_negative (v : val) : bool :=
  match below_zero v with Some true => true | _ => false end.

Definition is_non_negative (v : val) : bool :=
  match v with
  | VBool _ => true
  | VInt z => 0 <=? z
  | VFloat f => SFleb (S754_zero false) f
  | _ => false
  end.

(** The values the validators let through: those for which [v < 0] is
    [False]. They are the non-negative ones and NaN. *)
Definition passes (v : val) : bool :=
  match below_zero v with Some false => true | _ => false end.

Definition nan : val := VFloat S754_nan.

(** The exception of the validators. *)
Definition rejected : exn := ValueError "Positive values only!".

(** The attribute behind a property of [BasketballGame]: [_points], ... *)
Definition private_name (f : score) : string := "_" +:+ score_name f.

(** A class whose three score attributes are [NonNegativeField]s, each with its
    [field] equal to the attribute name, and whose [__init__] assigns the three
    attributes in order. *)
Definition score_class (cls : klass) (h : heap) : Prop :=
  (forall f, exists r, find_attr [cls] (score_name f) = Some (CField r)
                       /\ descs h !! r = Some {| field := score_name f |})
  /\ exists q, find_attr [cls] "__init__" = Some (CFunction q BasketballGameA.__init__).

(** Every score stored in an instance is one the validators let through. *)
Definition validated (os : list (gmap string val)) : Prop :=
  forall x d f v, os !! x = Some d -> d !! score_name f = Some v ->
                  passes v = true.

(** A computation keeps an invariant of the state, whether it returns or raises. *)
Definition preserves {St A} (I : St -> Prop) (c : M St A) : Prop :=
  forall s, I s -> I (snd (c s)).

(** *** The record without descriptors

    The same statements over records whose three scores are plain validated
    entries of the instance [__dict__], with no class and no descriptor in
    between.  [BasketballGameA] and [BasketballGameB] are compared with it. *)

Module Slots.

Definition put (x : nat) (f : score) (v : val) : M (list (gmap string val)) unit :=
  negative <- lt_zero v ;;
  if negative : bool then raise rejected
  else fun os => match os !! x with
                 | Some d => (inr tt, <[x := <[score_name f := v]> d]> os)
                 | None => (inl ReferenceError, os)
                 end.

Definition get (x : nat) (f : score) : M (list (gmap string val)) val :=
  fun os => match os !! x with
            | Some d =>
                match d !! score_name f with
                | Some v => (inr v, os)
                | None => (inl (KeyError (score_name f)), os)
                end
            | None => (inl ReferenceError, os)
            end.

Definition create (points rebounds steals : val) : M (list (gmap string val)) nat :=
  x <- (fun os => (inr (length os), os ++ [∅])) ;;
  put x Points points ;;
  put x Rebounds rebounds ;;
  put x Steals steals ;;
  ret x.

Definition exec (s : stmt) (os : list (gmap string val))
    : outcome * list (gmap string val) :=
  match s with
  | New points rebounds steals =>
      match create points rebounds steals os with
      | (inr x, os') => (Constructed x, os')
      | (inl e, os') => (Raised e, os')
      end
  | Get x f =>
      match get x f os with
      | (inr v, os') => (Read v, os')
      | (inl e, os') => (Raised e, os')
      end
  | Put x f v =>
      match put x f v os with
      | (inr _, os') => (Written, os')
      | (inl e, os') => (Raised e, os')
      end
  end.

Fixpoint run (prog : list stmt) (os : list (gmap string val))
    : list outcome * list (gmap string val) :=
  match prog with
  | [] => ([], os)
  | s :: prog' =>
      let (o, os') := exec s os in
      let (outs, os'') := run prog' os' in
      (o :: outs, os'')
  end.

End Slots.

(** A computation on the instances alone, run in a heap. *)
Definition on_objs {A} (c : M (list (gmap string val)) A) : py A :=
  fun h => let (r, os) := c (objs h) in (r, {| descs := descs h; objs := os |}).

(** * The rest of the notebook *)

(** ** Instance and class attributes: the classes [B] and [A] *)

Module Shadowing.

Module B.

(** The class [__dict__] as the runtime fills it: [__module__] and [__doc__]
    around what the body binds.  (The two entries [__dict__] and [__weakref__]
    that give the instances theirs are of [object]'s kind and left out.) *)
Definition cls : klass :=
  {| k_name := "B";
     k_dict := [ ("__module__", CValue (VStr "__main__"));
                 ("x", CValue (VInt 1));
                 ("__doc__", CValue VNone) ] |}.

End B.

Module A.

(** [str(value)]: the runtime passes the name of the attribute, a string, and
    [str] of a string is that string. *)
Definition __getattr__ (self : instance) (value : string) : py val :=
  ret (VStr value).

(** The class [__dict__], with the four entries the cell prints.  The hook is a
    function like the others; [str] of the values that are not strings is not
    modelled, so a call that passes one is refused here. *)
Definition cls : klass :=
  {| k_name := "A";
     k_dict := [ ("__module__", CValue (VStr "__main__"));
                 ("y", CValue (VInt 2));
                 ("__getattr__",
                  CFunction "A.__getattr__"
                    (fun self args =>
                       match args with
                       | [VStr value] => __getattr__ self value
                       | _ => raise (TypeError "__getattr__() takes a name")
                       end));
                 ("__doc__", CValue VNone) ] |}.

Definition mro : list klass := [cls; B.cls].

End A.

End Shadowing.

(** [a.name] in full: the read of [getattr_], and when that raises
    [AttributeError] the [__getattr__] of the type, if it has one, called with
    the name. *)
Definition read_attr (mro : list klass) (self : instance) (name : string) : py val :=
  fun h =>
    match getattr_ mro self name h with
    | (inl (AttributeError msg), h') =>
        match find_attr mro "__getattr__" with
        | Some (CFunction _ hook) => hook self [VStr name] h'
        | _ => (inl (AttributeError msg), h')
        end
    | r => r
    end.

(** The cell that follows the two classes: [a = A()], the reads of [a.x] and
    [a.y], [a.y = 3], the reads again, [a.z], and [a.__dict__] at the end. *)
Definition shadowing_cell (depth : nat) : py (list val * gmap string val) :=
  a <- new depth Shadowing.A.mro [] ;;
  x1 <- read_attr Shadowing.A.mro (instance_of depth Shadowing.A.mro a) "x" ;;
  y1 <- read_attr Shadowing.A.mro (instance_of depth Shadowing.A.mro a) "y" ;;
  setattr (instance_of depth Shadowing.A.mro a) "y" (VInt 3) ;;
  x2 <- read_attr Shadowing.A.mro (instance_of depth Shadowing.A.mro a) "x" ;;
  y2 <- read_attr Shadowing.A.mro (instance_of depth Shadowing.A.mro a) "y" ;;
  z <- read_attr Shadowing.A.mro (instance_of depth Shadowing.A.mro a) "z" ;;
  d <- instance_dict a ;;
  ret ([x1; y1; x2; y2; z], d).

(** The names the runtime keeps for itself: [__x__].  Those of [object] are not
    in the resolution orders above. *)
Definition is_special (name : string) : bool :=
  String.prefix "__" name && ends_with_dunder name.

(** ** Lists inside values *)

(** No list is reached from [v]: [v] is not a list, nor a tuple that holds one
    at any depth. *)
Fixpoint holds_no_list (v : val) : bool :=
  match v with
  | VList _ => false
  | VTuple vs => forallb holds_no_list vs
  | _ => true
  end.

(** An argument of [update] that can be told apart from the list [acc] of the
    instance and from whose items no list is reached: the loop over it cannot
    meet [self.items_list] again, so it runs over the items the argument had at
    the call. *)
Definition apart_from (acc : list val) (xs : val) (items : list val) : Prop :=
  xs <> VList acc /\ forallb holds_no_list items = true.

(** What is seen of a finished call [r] of [update] on [m]: it returned [None],
    and [m.items_list] then reads as [items]. *)
Definition leaves_items (m : instance) (r : (exn + val) * heap) (items : list val)
    : Prop :=
  fst r = inr VNone
  /\ getattr m "items_list" (snd r) = (inr (VList items), snd r).

(** ** Private names *)

(** The identifiers [mangle] rewrites: two leading underscores, and no two
    trailing ones. *)
Definition is_private (ident : string) : bool :=
  String.prefix "__" ident && negb (ends_with_dunder ident).

(** ** What [named_descriptors] leaves behind *)

(** The name the loop of [named_descriptors] assigns last to the descriptor at
    [r]: that of the last entry of the class [__dict__] bound to it. *)
Fixpoint last_binding (d : list (string * cattr)) (r : nat) : option string :=
  match d with
  | [] => None
  | item :: d' =>
      match last_binding d' r with
      | Some name => Some name
      | None =>
          match item.2 with
          | CField r' => if Nat.eqb r' r then Some item.1 else None
          | _ => None
          end
      end
  end.

(** Every [NonNegativeField] of the class [__dict__] is an allocated object. *)
Definition fields_allocated (d : list (string * cattr)) (h : heap) : Prop :=
  Forall (fun item => match item.2 with
                      | CField r => (r < length (descs h))%nat
                      | _ => True
                      end) d.

(** ** Sample heaps *)

(** The notebook's heap with an instance allocated and nothing assigned yet. *)
Definition blank_heap : heap := snd (alloc_object notebook_heap).

(** The same for the undecorated [BasketballGameB]. *)
Definition undecorated_heap : heap := snd (alloc_object (snd undecorated_B)).

Definition basketball_heap : heap :=
  snd (new 2 BasketballGame.mro [VInt 100; VInt 30; VInt 10; VInt 5] empty_heap).

Definition basketball_dict : gmap string val :=
  <["blocks" := VInt 5]>
    (<["_steals" := VInt 10]> (<["_rebounds" := VInt 30]> {["_points" := VInt 100]})).

Definition mapping_heap : heap := snd (new 2 Mapping.mro [ints [1; 2]] empty_heap).

Definition mapping_dict : gmap string val := {["items_list" := ints [1; 2]]}.

Definition two_instances : heap := {| descs := []; objs := [∅; ∅] |}.

(** * Properties *)

(** ** The wrappers *)

Section WrapperFacts.
Context {Obj Kw Res : Type}.
Implicit Types (f : list Obj -> Kw -> Res) (args : list Obj) (kwargs : Kw).

(** C7. [MyStaticmethod(f).__get__(i, c)] is [f] itself for every instance [i]
    ([None] included) and owner [c]; so the attribute read from the class or from
    an instance, and called, is [f] applied to the explicit arguments alone. *)
Theorem MyStaticmethod_get_is_func f (i : option Obj) (c : Obj) :
  MyStaticmethod.__get__ (MyStaticmethod.__init__ f) i c = f
  /\ (forall args kwargs,
        class_access MyStaticmethod.__get__ (MyStaticmethod.__init__ f) c args kwargs
        = f args kwargs)
  /\ (forall (a : Obj) args kwargs,
        instance_access MyStaticmethod.__get__ (MyStaticmethod.__init__ f) a c args kwargs
        = f args kwargs).
Proof. repeat split. Qed.

(** C6. The wrapper [MyClassmethod(f).__get__(instance, A)] calls [f] with the
    owner [A] put before the explicit arguments, whatever [instance] is; the call
    through the class and the call through an instance are the same call
    [f(A, args)]. *)
Theorem MyClassmethod_get_prepends_owner f (instance : option Obj) (A : Obj)
    args kwargs :
  MyClassmethod.__get__ (MyClassmethod.__init__ f) instance A args kwargs
  = f (A :: args) kwargs
  /\ class_access MyClassmethod.__get__ (MyClassmethod.__init__ f) A args kwargs
     = f (A :: args) kwargs
  /\ (forall a : Obj,
        instance_access MyClassmethod.__get__ (MyClassmethod.__init__ f) a A args kwargs
        = class_access MyClassmethod.__get__ (MyClassmethod.__init__ f) A args kwargs).
Proof. repeat split. Qed.

End WrapperFacts.

Section MyPropertyFacts.
Context {St Inst Owner Val : Type}.
Implicit Types (p : MyProperty.t St Inst Val) (a : Inst) (owner : Owner) (s : St).

Lemma MyProperty_get_present p a owner s (g : Inst -> M St Val) :
  MyProperty.fget p = Some g ->
  MyProperty.__get__ p (Some a) owner s
  = match g a s with
    | (inr v, s') => (inr (inr v), s')
    | (inl e, s') => (inl e, s')
    end.
Proof.
  intros Hg. unfold MyProperty.__get__, bind, ret. rewrite Hg.
  destruct (g a s) as [[e | v] s']; reflexivity.
Qed.

Lemma MyProperty_set_present p a (v : Val) s (f : Inst -> Val -> M St Val) :
  MyProperty.fset p = Some f ->
  MyProperty.__set__ p a v s = discard (f a v s).
Proof.
  intros Hf. unfold MyProperty.__set__, bind, ret, discard. rewrite Hf.
  destruct (f a v s) as [[e | w] s']; reflexivity.
Qed.

Lemma MyProperty_delete_present p a s (f : Inst -> M St Val) :
  MyProperty.fdel p = Some f ->
  MyProperty.__delete__ p a s = discard (f a s).
Proof.
  intros Hf. unfold MyProperty.__delete__, bind, ret, discard. rewrite Hf.
  destruct (f a s) as [[e | w] s']; reflexivity.
Qed.

Lemma raised_discard {A} (r : (exn + A) * St) : raised (discard r) = raised r.
Proof. destruct r as [[e | x] s]; reflexivity. Qed.

Lemma MyProperty_get_missing p a owner s :
  MyProperty.fget p = None ->
  MyProperty.__get__ p (Some a) owner s
  = (inl (AttributeError "unreadable attribute"), s).
Proof. intros H. unfold MyProperty.__get__. now rewrite H. Qed.

Lemma MyProperty_set_missing p a (v : Val) s :
  MyProperty.fset p = None ->
  MyProperty.__set__ p a v s = (inl (AttributeError "can't set attribute"), s).
Proof. intros H. unfold MyProperty.__set__. now rewrite H. Qed.

Lemma MyProperty_delete_missing p a s :
  MyProperty.fdel p = None ->
  MyProperty.__delete__ p a s = (inl (AttributeError "can't delete attribute"), s).
Proof. intros H. unfold MyProperty.__delete__. now rewrite H. Qed.

Lemma raised_get_present p a owner s (g : Inst -> M St Val) :
  MyProperty.fget p = Some g ->
  raised (MyProperty.__get__ p (Some a) owner s) = raised (g a s).
Proof.
  intros H. rewrite (MyProperty_get_present _ _ _ _ _ H).
  destruct (g a s) as [[e | w] s']; reflexivity.
Qed.

(** C5. Each accessor raises its own [AttributeError] when the function behind
    it is missing, and leaves the state alone.  When the function is present the
    accessor raises exactly what the function raises, nothing of its own; so,
    for functions that do not raise, the accessor raises if and only if its
    function is missing. *)
Theorem MyProperty_raises_when_missing p a owner (v : Val) s :
  (MyProperty.fget p = None ->
     MyProperty.__get__ p (Some a) owner s
     = (inl (AttributeError "unreadable attribute"), s))
  /\ (forall g, MyProperty.fget p = Some g ->
        raised (MyProperty.__get__ p (Some a) owner s) = raised (g a s))
  /\ ((forall g, MyProperty.fget p = Some g -> raised (g a s) = None) ->
        (raised (MyProperty.__get__ p (Some a) owner s)
         = Some (AttributeError "unreadable attribute")
         <-> MyProperty.fget p = None))
  /\ (MyProperty.fset p = None ->
        MyProperty.__set__ p a v s = (inl (AttributeError "can't set attribute"), s))
  /\ (forall f, MyProperty.fset p = Some f ->
        raised (MyProperty.__set__ p a v s) = raised (f a v s))
  /\ ((forall f, MyProperty.fset p = Some f -> raised (f a v s) = None) ->
        (raised (MyProperty.__set__ p a v s)
         = Some (AttributeError "can't set attribute")
         <-> MyProperty.fset p = None))
  /\ (MyProperty.fdel p = None ->
        MyProperty.__delete__ p a s
        = (inl (AttributeError "can't delete attribute"), s))
  /\ (forall f, MyProperty.fdel p = Some f ->
        raised (MyProperty.__delete__ p a s) = raised (f a s))
  /\ ((forall f, MyProperty.fdel p = Some f -> raised (f a s) = None) ->
        (raised (MyProperty.__delete__ p a s)
         = Some (AttributeError "can't delete attribute")
         <-> MyProperty.fdel p = None)).
Proof.
  repeat apply conj.
  - apply MyProperty_get_missing.
  - apply raised_get_present.
  - intros Hquiet. split.
    + destruct (MyProperty.fget p) as [g |] eqn:E; [| reflexivity].
      rewrite (raised_get_present _ _ _ _ _ E), (Hquiet g eq_refl). discriminate.
    + intros E. now rewrite MyProperty_get_missing.
  - apply MyProperty_set_missing.
  - intros f H. rewrite (MyProperty_set_present _ _ _ _ _ H). apply raised_discard.
  - intros Hquiet. split.
    + destruct (MyProperty.fset p) as [f |] eqn:E; [| reflexivity].
      rewrite (MyProperty_set_present _ _ _ _ _ E), raised_discard, (Hquiet f eq_refl).
      discriminate.
    + intros E. now rewrite MyProperty_set_missing.
  - apply MyProperty_delete_missing.
  - intros f H. rewrite (MyProperty_delete_present _ _ _ _ H). apply raised_discard.
  - intros Hquiet. split.
    + destruct (MyProperty.fdel p) as [f |] eqn:E; [| reflexivity].
      rewrite (MyProperty_delete_present _ _ _ _ E), raised_discard, (Hquiet f eq_refl).
      discriminate.
    + intros E. now rewrite MyProperty_delete_missing.
Qed.

End MyPropertyFacts.

(** C4. For a class that stores the descriptor [p = MyProperty(fget, fset, fdel)]
    under the name [x], and an instance [a] of it: reading [a.x] is [fget(a)], the
    assignment [a.x = v] is the call [fset(a, v)], [del a.x] is the call
    [fdel(a)]; read on the class ([instance] is [None]) the attribute is the
    descriptor [p] itself. *)
Theorem MyProperty_attribute_access (mro : list klass) (x : string)
    (p : MyProperty.t heap instance val) (depth l : nat) :
  let a := instance_of depth mro l in
  find_attr mro x = Some (CProperty p) ->
  (forall fget, MyProperty.fget p = Some fget ->
     forall h, getattr (instance_of (S depth) mro l) x h = fget a h)
  /\ (forall fset, MyProperty.fset p = Some fset ->
        forall v h, setattr (instance_of (S depth) mro l) x v h = discard (fset a v h))
  /\ (forall fdel, MyProperty.fdel p = Some fdel ->
        forall h, delattr (instance_of (S depth) mro l) x h = discard (fdel a h))
  /\ (forall h, class_access (Inst := instance) MyProperty.__get__ p mro h
                = (inr (inl p), h)).
Proof.
  intros a Hx. repeat split.
  - intros fget Hg h. simpl. unfold getattr_. rewrite Hx. unfold bind at 1.
    rewrite (MyProperty_get_present p _ _ _ fget Hg). fold a.
    destruct (fget a h) as [[e | v] h']; reflexivity.
  - intros fset Hs v h. simpl. unfold setattr_. rewrite Hx.
    now apply MyProperty_set_present.
  - intros fdel Hd h. simpl. unfold delattr_. rewrite Hx.
    now apply MyProperty_delete_present.
Qed.

(** ** The notebook's runs *)

Example mapping_cell_output :
  fst (mapping_cell 3 empty_heap)
  = inr (ints [1; 2; 3; 4; 5; 6],
         VList [VInt 1; VInt 2; VTuple [VInt 3; VStr "three"];
                VTuple [VInt 4; VStr "four"]; VInt 5; VInt 6]).
Proof. vm_compute. reflexivity. Qed.

Example mangle_update : mangle "Mapping" "__update" = "_Mapping__update".
Proof. reflexivity. Qed.

Example mangle_dunder : mangle "Mapping" "__init__" = "__init__".
Proof. reflexivity. Qed.

Example score_cell_A :
  match notebook_classes empty_heap with
  | (inr (A, _), h) => fst (run 1 A score_cell h) = score_cell_output
  | _ => False
  end.
Proof. vm_compute. reflexivity. Qed.

Example score_cell_B :
  match notebook_classes empty_heap with
  | (inr (_, B), h) => fst (run 1 B score_cell h) = score_cell_output
  | _ => False
  end.
Proof. vm_compute. reflexivity. Qed.


(** ** Instances and their [__dict__] *)

Lemma ref_instance_of depth mro l : ref (instance_of depth mro l) = l.
Proof. destruct depth; reflexivity. Qed.

Lemma getattr_S depth mro l :
  getattr (instance_of (S depth) mro l) = getattr_ mro (instance_of depth mro l).
Proof. reflexivity. Qed.

Lemma setattr_S depth mro l :
  setattr (instance_of (S depth) mro l) = setattr_ mro (instance_of depth mro l).
Proof. reflexivity. Qed.

Lemma delattr_S depth mro l :
  delattr (instance_of (S depth) mro l) = delattr_ mro (instance_of depth mro l).
Proof. reflexivity. Qed.

Lemma call_S depth mro l :
  call (instance_of (S depth) mro l) = call_ mro (instance_of depth mro l).
Proof. reflexivity. Qed.

Lemma getattr_from_dict mro depth l name h d v :
  find_attr mro name = None ->
  objs h !! l = Some d -> d !! name = Some v ->
  getattr (instance_of (S depth) mro l) name h = (inr v, h).
Proof.
  intros Hc Hl Hd. rewrite getattr_S. unfold getattr_. rewrite Hc.
  unfold bind, instance_dict, ret. rewrite ref_instance_of, Hl, Hd. reflexivity.
Qed.

Lemma list_append_items mro depth l h d acc item :
  find_attr mro "items_list" = None ->
  objs h !! l = Some d -> d !! "items_list" = Some (VList acc) ->
  list_append (instance_of (S depth) mro l) "items_list" item h
  = (inr tt, with_dict h l (<["items_list" := VList (acc ++ [item])]> d)).
Proof.
  intros Hc Hl Hd. unfold list_append, bind.
  rewrite (getattr_from_dict _ _ _ _ _ _ _ Hc Hl Hd).
  unfold dict_setitem. rewrite ref_instance_of, Hl. reflexivity.
Qed.

Lemma with_dict_id h l d : objs h !! l = Some d -> with_dict h l d = h.
Proof.
  intros H. destruct h as [ds os]. unfold with_dict. simpl in *.
  f_equal. now apply list_insert_id.
Qed.

Lemma with_dict_twice h l d d' : with_dict (with_dict h l d) l d' = with_dict h l d'.
Proof. unfold with_dict. simpl. f_equal. apply list_insert_insert_eq. Qed.

Lemma with_dict_lookup h l d d' : objs h !! l = Some d -> objs (with_dict h l d') !! l = Some d'.
Proof.
  intros H. unfold with_dict. simpl. apply list_lookup_insert_eq.
  now apply lookup_lt_Some in H.
Qed.

(** ** [Mapping] *)

Lemma for_each_append mro depth l items : forall h d acc,
  find_attr mro "items_list" = None ->
  objs h !! l = Some d -> d !! "items_list" = Some (VList acc) ->
  for_each items (fun item => list_append (instance_of (S depth) mro l) "items_list" item) h
  = (inr tt, with_dict h l (<["items_list" := VList (acc ++ items)]> d)).
Proof.
  induction items as [| x xs IH]; intros h d acc Hc Hl Hd.
  - cbn [for_each]. unfold ret. rewrite app_nil_r, insert_id by done.
    now rewrite with_dict_id.
  - cbn [for_each]. unfold bind at 1.
    rewrite (list_append_items _ _ _ _ _ _ _ Hc Hl Hd).
    rewrite (IH _ (<["items_list" := VList (acc ++ [x])]> d) (acc ++ [x]) Hc).
    + rewrite with_dict_twice, insert_insert_eq, <- app_assoc. reflexivity.
    + eapply with_dict_lookup; eauto.
    + apply lookup_insert_eq.
Qed.

Lemma Mapping_init_builds mro depth xs items h q q' :
  to_list xs = Some items ->
  find_attr mro "items_list" = None ->
  find_attr mro "__init__" = Some (CFunction q Mapping.__init__) ->
  find_attr mro "_Mapping__update" = Some (CFunction q' Mapping.update) ->
  new (S (S depth)) mro [xs] h
  = (inr (length (objs h)),
     {| descs := descs h; objs := objs h ++ [{["items_list" := VList items]}] |}).
Proof.
  intros Hxs Hi Hinit Hupd. unfold new, bind at 1, alloc_object. rewrite Hinit.
  set (l := length (objs h)).
  set (h1 := {| descs := descs h; objs := objs h ++ [∅] |}).
  assert (objs h1 !! l = Some ∅) as Hl1.
  { unfold h1, l. simpl. now rewrite lookup_app_r, Nat.sub_diag by lia. }
  unfold bind at 1. unfold Mapping.__init__. unfold bind at 1.
  rewrite setattr_S. unfold setattr_ at 1. rewrite Hi.
  unfold dict_setitem at 1. rewrite ref_instance_of, Hl1.
  fold (with_dict h1 l (<["items_list" := VList []]> ∅)).
  set (h2 := with_dict h1 l _).
  unfold bind at 1. rewrite call_S. change (mangle "Mapping" "__update") with "_Mapping__update".
  unfold call_ at 1. rewrite Hupd. unfold bind at 1, instance_dict at 1.
  rewrite ref_instance_of.
  assert (objs h2 !! l = Some (<["items_list" := VList []]> ∅)) as Hl2.
  { eapply with_dict_lookup; eauto. }
  rewrite Hl2. rewrite lookup_insert_ne by done. rewrite lookup_empty.
  unfold Mapping.update, bind at 1, iter. rewrite Hxs. unfold ret at 1.
  unfold bind at 1.
  rewrite (for_each_append mro depth l items h2 _ [] Hi Hl2) by apply lookup_insert_eq.
  unfold ret. simpl. f_equal. unfold h2. rewrite with_dict_twice. unfold with_dict, h1. simpl.
  f_equal. rewrite insert_insert_eq. unfold l.
  rewrite insert_app_r_alt, Nat.sub_diag by lia. reflexivity.
Qed.

(** The override has another signature: called as [__init__] would call an
    unmangled [self.update(iterable)], it raises. *)
Lemma MappingSubclass_update_one_argument depth l xs h d :
  objs h !! l = Some d -> d !! "update" = None ->
  call (instance_of (S depth) MappingSubclass.mro l) "update" [xs] h
  = (inl (TypeError "update() takes 3 positional arguments"), h).
Proof.
  intros Hl Hd. rewrite call_S. unfold call_. cbn [find_attr MappingSubclass.mro].
  cbn -[instance_of]. unfold bind, instance_dict.
  rewrite ref_instance_of, Hl, Hd. reflexivity.
Qed.

(** C3. Overriding [update] in a subclass does not break [Mapping.__init__],
    which calls the mangled name [_Mapping__update], bound to the original
    [update]: for every iterable [xs], [MappingSubclass(xs).items_list] is
    [list(xs)], as [Mapping(xs).items_list] is, although [update] itself now
    resolves to the override. *)
Theorem Mapping_init_survives_override (depth : nat) (xs : val) (items : list val)
    (h : heap) :
  let x := length (objs h) in
  let h' := {| descs := descs h;
               objs := objs h ++ [{["items_list" := VList items]}] |} in
  to_list xs = Some items ->
  new (S (S depth)) MappingSubclass.mro [xs] h = (inr x, h')
  /\ getattr (instance_of (S depth) MappingSubclass.mro x) "items_list" h'
     = (inr (VList items), h')
  /\ new (S (S depth)) Mapping.mro [xs] h = (inr x, h')
  /\ getattr (instance_of (S depth) Mapping.mro x) "items_list" h'
     = (inr (VList items), h')
  /\ find_attr MappingSubclass.mro (mangle "Mapping" "__update")
     = Some (CFunction "Mapping.update" Mapping.update)
  /\ find_attr MappingSubclass.mro "update"
     = Some (CFunction "MappingSubclass.update" MappingSubclass.update).
Proof.
  intros x h' Hxs.
  assert (objs h' !! x = Some {["items_list" := VList items]}) as Hx.
  { unfold h', x. cbn [objs]. now rewrite lookup_app_r, Nat.sub_diag by lia. }
  repeat split.
  - eapply Mapping_init_builds; [exact Hxs | reflexivity ..].
  - eapply getattr_from_dict; [reflexivity | exact Hx | apply lookup_singleton_eq].
  - eapply Mapping_init_builds; [exact Hxs | reflexivity ..].
  - eapply getattr_from_dict; [reflexivity | exact Hx | apply lookup_singleton_eq].
Qed.

(** ** The validators *)

Lemma is_negative_cases v : is_negative v = true -> below_zero v = Some true.
Proof. unfold is_negative. now destruct (below_zero v) as [[|] |]. Qed.

Lemma is_non_negative_cases v : is_non_negative v = true -> below_zero v = Some false.
Proof.
  destruct v as [| b | z | f | | | |]; try discriminate; cbn.
  - reflexivity.
  - intros H. apply Z.leb_le in H. f_equal. apply Z.ltb_ge. lia.
  - now destruct f as [[|] | [|] | | [|] m e].
Qed.

Lemma passes_cases v : passes v = true -> below_zero v = Some false.
Proof. unfold passes. now destruct (below_zero v) as [[|] |]. Qed.

Lemma is_non_negative_passes v : is_non_negative v = true -> passes v = true.
Proof. intros H. unfold passes. now rewrite (is_non_negative_cases v H). Qed.

Lemma NonNegativeField_set_cases (self : NonNegativeField) (a : instance) v h :
  NonNegativeField.__set__ self a v h
  = match below_zero v with
    | Some true => (inl rejected, h)
    | Some false => dict_setitem (ref a) (field self) v h
    | None => (inl (unorderable v), h)
    end.
Proof.
  unfold NonNegativeField.__set__, bind, lt_zero, ret, raise.
  now destruct (below_zero v) as [[|] |].
Qed.

Lemma BasketballGame_put depth l f v h :
  setattr (instance_of (S (S depth)) BasketballGame.mro l) (score_name f) v h
  = match below_zero v with
    | Some true => (inl rejected, h)
    | Some false => dict_setitem l (private_name f) v h
    | None => (inl (unorderable v), h)
    end.
Proof.
  rewrite setattr_S.
  destruct f; cbn -[instance_of below_zero unorderable];
    unfold BasketballGame.points_setter, BasketballGame.rebounds_setter,
      BasketballGame.steals_setter, bind, lt_zero, ret, raise;
    (destruct (below_zero v) as [[|] |]; try reflexivity);
    rewrite setattr_S; unfold setattr_; cbn -[instance_of];
    rewrite ref_instance_of; unfold dict_setitem;
    destruct (objs h !! l); reflexivity.
Qed.

Lemma BasketballGame_get depth l f h d w :
  objs h !! l = Some d -> d !! private_name f = Some w ->
  getattr (instance_of (S (S depth)) BasketballGame.mro l) (score_name f) h = (inr w, h).
Proof.
  intros Hl Hd. rewrite getattr_S.
  destruct f; cbn -[instance_of]; unfold bind, ret;
    unfold BasketballGame.points_getter, BasketballGame.rebounds_getter,
      BasketballGame.steals_getter;
    erewrite getattr_from_dict; eauto.
Qed.

Lemma dict_setitem_ok l key v h d :
  objs h !! l = Some d ->
  dict_setitem l key v h = (inr tt, with_dict h l (<[key := v]> d)).
Proof. intros H. unfold dict_setitem. now rewrite H. Qed.

Lemma validated_store_cases l key v h d :
  objs h !! l = Some d ->
  let r := match below_zero v with
           | Some true => (inl rejected, h)
           | Some false => dict_setitem l key v h
           | None => (inl (unorderable v), h)
           end in
  (raised r = Some rejected <-> is_negative v = true)
  /\ (is_non_negative v = true -> r = (inr tt, with_dict h l (<[key := v]> d))).
Proof.
  intros Hl r. subst r. pose proof (is_non_negative_cases v) as Hnn.
  unfold is_negative. rewrite (dict_setitem_ok _ _ _ _ _ Hl).
  destruct (below_zero v) as [[|] |]; cbn.
  - split; [tauto |]. intros H. specialize (Hnn H). discriminate.
  - split; [split; discriminate | reflexivity].
  - split; [split; discriminate |]. intros H. specialize (Hnn H). discriminate.
Qed.

(** C2. The validators reject exactly the negative values: an assignment
    through [NonNegativeField.__set__], or to [points], [rebounds] or [steals]
    of a [BasketballGame], raises the [ValueError] if and only if the value is
    below zero; a value that is zero or more is stored as it is.  Zero is
    accepted, whatever the message says. *)
Theorem validators_reject_negative (self : NonNegativeField) (a : instance)
    (depth l : nat) (f : score) (d d' : gmap string val) (v : val) (h : heap) :
  let game := instance_of (S (S depth)) BasketballGame.mro l in
  objs h !! ref a = Some d ->
  objs h !! l = Some d' ->
  (raised (NonNegativeField.__set__ self a v h) = Some rejected
     <-> is_negative v = true)
  /\ (is_non_negative v = true ->
        NonNegativeField.__set__ self a v h
        = (inr tt, with_dict h (ref a) (<[field self := v]> d)))
  /\ (raised (setattr game (score_name f) v h) = Some rejected
        <-> is_negative v = true)
  /\ (is_non_negative v = true ->
        setattr game (score_name f) v h
        = (inr tt, with_dict h l (<[private_name f := v]> d')))
  /\ is_negative (VInt 0) = false /\ is_non_negative (VInt 0) = true.
Proof.
  intros game Ha Hl. subst game.
  rewrite NonNegativeField_set_cases, BasketballGame_put.
  destruct (validated_store_cases (ref a) (field self) v h d Ha) as [H1 H2].
  destruct (validated_store_cases l (private_name f) v h d' Hl) as [H3 H4].
  repeat split; try apply H1; try apply H2; try apply H3; try apply H4.
Qed.

Lemma getattr_field mro x r fld depth l h :
  find_attr mro x = Some (CField r) ->
  descs h !! r = Some fld ->
  getattr (instance_of (S depth) mro l) x h
  = match objs h !! l with
    | Some d => match d !! field fld with
                | Some v => (inr v, h)
                | None => (inl (KeyError (field fld)), h)
                end
    | None => (inl ReferenceError, h)
    end.
Proof.
  intros Hx Hr. rewrite getattr_S. unfold getattr_. rewrite Hx.
  unfold bind, descriptor. rewrite Hr. unfold NonNegativeField.__get__, bind, instance_dict.
  rewrite ref_instance_of. destruct (objs h !! l) as [d |]; [| reflexivity].
  destruct (d !! field fld); reflexivity.
Qed.

Lemma setattr_field mro x r fld depth l v h :
  find_attr mro x = Some (CField r) ->
  descs h !! r = Some fld ->
  setattr (instance_of (S depth) mro l) x v h
  = match below_zero v with
    | Some true => (inl rejected, h)
    | Some false => dict_setitem l (field fld) v h
    | None => (inl (unorderable v), h)
    end.
Proof.
  intros Hx Hr. rewrite setattr_S. unfold setattr_. rewrite Hx.
  unfold bind, descriptor. rewrite Hr.
  rewrite NonNegativeField_set_cases, ref_instance_of. reflexivity.
Qed.

(** C8. A rejected write changes nothing: assigning a negative value through
    [NonNegativeField.__set__], through an attribute bound to a
    [NonNegativeField], or to a score of a [BasketballGame] raises the
    [ValueError] and leaves the heap as it was, so that the read that follows
    still gives the value [w] stored before. *)
Theorem rejected_write_changes_nothing (mro : list klass) (x : string) (r : nat)
    (fld : NonNegativeField) (depth l : nat) (d : gmap string val) (v : val)
    (h : heap) :
  let a := instance_of (S depth) mro l in
  let game := instance_of (S (S depth)) BasketballGame.mro l in
  find_attr mro x = Some (CField r) ->
  descs h !! r = Some fld ->
  objs h !! l = Some d ->
  is_negative v = true ->
  NonNegativeField.__set__ fld a v h = (inl rejected, h)
  /\ setattr a x v h = (inl rejected, h)
  /\ (forall w, d !! field fld = Some w ->
        getattr a x (snd (setattr a x v h)) = (inr w, h))
  /\ (forall f, setattr game (score_name f) v h = (inl rejected, h))
  /\ (forall f w, d !! private_name f = Some w ->
        getattr game (score_name f) (snd (setattr game (score_name f) v h))
        = (inr w, h)).
Proof.
  intros a game Hx Hr Hl Hv. subst a game.
  pose proof (is_negative_cases _ Hv) as Hz.
  assert (forall f, setattr (instance_of (S (S depth)) BasketballGame.mro l)
                      (score_name f) v h = (inl rejected, h)) as Hg.
  { intros f. rewrite BasketballGame_put. now rewrite Hz. }
  assert (setattr (instance_of (S depth) mro l) x v h = (inl rejected, h)) as Hs.
  { rewrite (setattr_field _ _ _ _ _ _ _ _ Hx Hr). now rewrite Hz. }
  repeat split.
  - rewrite NonNegativeField_set_cases. now rewrite Hz.
  - exact Hs.
  - intros w Hw. rewrite Hs. cbn [snd].
    rewrite (getattr_field _ _ _ _ _ _ _ Hx Hr), Hl, Hw. reflexivity.
  - exact Hg.
  - intros f w Hw. rewrite Hg. cbn [snd]. eapply BasketballGame_get; eauto.
Qed.

(** C9. Write, then read: for a [NonNegativeField] bound to the attribute [x] of
    the class and named [x], after [a.x = v] with [v] zero or more, [a.x] is
    [v]; the other entries of the instance [__dict__], the other instances, the
    descriptors and the other validated attributes of [a] are as before. *)
Theorem NonNegativeField_set_then_get (mro : list klass) (x : string) (r : nat)
    (depth l : nat) (d : gmap string val) (v : val) (h : heap) :
  let a := instance_of (S depth) mro l in
  let h' := with_dict h l (<[x := v]> d) in
  find_attr mro x = Some (CField r) ->
  descs h !! r = Some {| field := x |} ->
  objs h !! l = Some d ->
  is_non_negative v = true ->
  setattr a x v h = (inr tt, h')
  /\ getattr a x h' = (inr v, h')
  /\ objs h' !! l = Some (<[x := v]> d)
  /\ (forall k, k <> x -> (<[x := v]> d) !! k = d !! k)
  /\ (forall l', l' <> l -> objs h' !! l' = objs h !! l')
  /\ descs h' = descs h
  /\ (forall y r', y <> x -> find_attr mro y = Some (CField r') ->
        descs h !! r' = Some {| field := y |} ->
        fst (getattr a y h') = fst (getattr a y h)).
Proof.
  intros a h' Hx Hr Hl Hv. subst a.
  pose proof (is_non_negative_cases _ Hv) as Hz.
  assert (objs h' !! l = Some (<[x := v]> d)) as Hl'.
  { eapply with_dict_lookup; eauto. }
  repeat split.
  - rewrite (setattr_field _ _ _ _ _ _ _ _ Hx Hr), Hz.
    now apply dict_setitem_ok.
  - rewrite (getattr_field _ _ _ {| field := x |} _ _ _ Hx) by exact Hr.
    rewrite Hl'. cbn [field]. now rewrite lookup_insert_eq.
  - exact Hl'.
  - intros k Hk. now apply lookup_insert_ne.
  - intros l' Hne. unfold h', with_dict. cbn [objs]. now apply list_lookup_insert_ne.
  - intros y r' Hy Hfy Hry.
    rewrite (getattr_field _ _ _ {| field := y |} _ _ _ Hfy) by exact Hry.
    rewrite (getattr_field _ _ _ {| field := y |} _ _ _ Hfy) by exact Hry.
    rewrite Hl', Hl. cbn [field]. rewrite lookup_insert_ne by done.
    destruct (d !! y); reflexivity.
Qed.

(** ** [BasketballGameA] and [BasketballGameB] *)

Lemma lookup_app_plus {A} (l1 l2 : list A) i : (l1 ++ l2) !! (length l1 + i)%nat = l2 !! i.
Proof. rewrite lookup_app_r by lia. f_equal. lia. Qed.

Lemma notebook_classes_defined h0 :
  exists A B h,
    notebook_classes h0 = (inr (A, B), h)
    /\ objs h = objs h0
    /\ score_class A h /\ score_class B h.
Proof.
  destruct h0 as [ds os].
  eexists _, _, _. split; [| split; [| split]].
  - unfold notebook_classes, BasketballGameA.define, BasketballGameB.define,
      BasketballGameB.body, named_descriptors, bind, alloc_descriptor, ret.
    cbn -[length lookup insert app].
    rewrite <- !app_assoc. cbn [app]. rewrite !length_app. cbn [length].
    unfold set_field, bind. cbn [descs objs].
    repeat (cbn [descs objs]; first [rewrite insert_app_r | rewrite lookup_app_plus];
            cbn [lookup list_lookup insert list_insert]).
    reflexivity.
  - reflexivity.
  - split; [| eexists; reflexivity].
    intros f. destruct f; eexists; (split; [reflexivity |]); cbn [descs].
    + rewrite <- (Nat.add_0_r (length ds)). now rewrite lookup_app_plus.
    + now rewrite lookup_app_plus.
    + now rewrite lookup_app_plus.
  - split; [| eexists; reflexivity].
    intros f. destruct f; eexists; (split; [reflexivity |]); cbn [descs];
      now rewrite lookup_app_plus.
Qed.

Lemma score_class_descs cls h h' : descs h' = descs h -> score_class cls h -> score_class cls h'.
Proof. unfold score_class. intros ->. tauto. Qed.

Lemma on_objs_descs {A} (c : M _ A) h : descs (snd (on_objs c h)) = descs h.
Proof. unfold on_objs. destruct (c (objs h)). reflexivity. Qed.

Lemma bind_on_objs {A B} (P : heap -> Prop) (m : py A) (k : A -> py B)
    (c : M _ A) (c' : A -> M _ B) h :
  (forall h h', descs h' = descs h -> P h -> P h') ->
  P h ->
  (forall h, P h -> m h = on_objs c h) ->
  (forall a h, P h -> k a h = on_objs (c' a) h) ->
  bind m k h = on_objs (bind c c') h.
Proof.
  intros HP Ph Hm Hk. unfold bind. rewrite (Hm h Ph).
  pose proof (on_objs_descs c h) as Hd. unfold on_objs in *.
  destruct (c (objs h)) as [[e | a] os]; [reflexivity |].
  rewrite Hk by (eapply HP; [| exact Ph]; exact Hd). reflexivity.
Qed.

Lemma put_on_objs cls depth x f v h :
  score_class cls h ->
  setattr (instance_of (S depth) [cls] x) (score_name f) v h = on_objs (Slots.put x f v) h.
Proof.
  intros [Hf _]. destruct (Hf f) as (r & Hr & Hd).
  rewrite (setattr_field _ _ _ _ _ _ _ _ Hr Hd). cbn [field].
  unfold on_objs, Slots.put, bind, lt_zero, ret, raise, dict_setitem.
  destruct (below_zero v) as [[|] |]; try (destruct h; reflexivity).
  destruct (objs h !! x); [reflexivity | destruct h; reflexivity].
Qed.

Lemma get_on_objs cls depth x f h :
  score_class cls h ->
  getattr (instance_of (S depth) [cls] x) (score_name f) h = on_objs (Slots.get x f) h.
Proof.
  intros [Hf _]. destruct (Hf f) as (r & Hr & Hd).
  rewrite (getattr_field _ _ _ _ _ _ _ Hr Hd). cbn [field].
  unfold on_objs, Slots.get.
  destruct (objs h !! x) as [d |]; [| destruct h; reflexivity].
  destruct (d !! score_name f); destruct h; reflexivity.
Qed.

Lemma bind_assoc {St A B C} (m : M St A) (k : A -> M St B) (k' : B -> M St C) s :
  bind (bind m k) k' s = bind m (fun a => bind (k a) k') s.
Proof. unfold bind. destruct (m s) as [[e | a] s']; reflexivity. Qed.

Lemma new_on_objs cls depth p r s h :
  score_class cls h ->
  new (S depth) [cls] [p; r; s] h = on_objs (Slots.create p r s) h.
Proof.
  intros Hc. pose proof Hc as [_ [q Hq]].
  assert (forall h h', descs h' = descs h -> score_class cls h -> score_class cls h')
    as HP by (intros; eapply score_class_descs; eauto).
  unfold new, Slots.create. rewrite Hq.
  apply (bind_on_objs (score_class cls)); [exact HP | exact Hc | reflexivity |].
  intros x h1 H1. unfold BasketballGameA.__init__.
  rewrite bind_assoc.
  apply (bind_on_objs (score_class cls)); [exact HP | exact H1 | |].
  { intros h2 H2. now apply (put_on_objs cls depth x Points). }
  intros _ h2 H2. rewrite bind_assoc.
  apply (bind_on_objs (score_class cls)); [exact HP | exact H2 | |].
  { intros h3 H3. now apply (put_on_objs cls depth x Rebounds). }
  intros _ h3 H3. rewrite bind_assoc.
  apply (bind_on_objs (score_class cls)); [exact HP | exact H3 | |].
  { intros h4 H4. now apply (put_on_objs cls depth x Steals). }
  intros _ h4 H4. destruct h4; reflexivity.
Qed.

Lemma exec_on_objs cls depth s h :
  score_class cls h ->
  exec (S depth) cls s h
  = (fst (Slots.exec s (objs h)),
     {| descs := descs h; objs := snd (Slots.exec s (objs h)) |}).
Proof.
  intros Hc. destruct s as [p r s | x f | x f v]; unfold exec, Slots.exec.
  - rewrite (new_on_objs _ _ _ _ _ _ Hc). unfold on_objs.
    destruct (Slots.create p r s (objs h)) as [[e | y] os]; reflexivity.
  - rewrite (get_on_objs _ _ _ _ _ Hc). unfold on_objs.
    destruct (Slots.get x f (objs h)) as [[e | y] os]; reflexivity.
  - rewrite (put_on_objs _ _ _ _ _ _ Hc). unfold on_objs.
    destruct (Slots.put x f v (objs h)) as [[e | y] os]; reflexivity.
Qed.

Lemma run_on_objs cls depth prog : forall h,
  score_class cls h ->
  run (S depth) cls prog h
  = (fst (Slots.run prog (objs h)),
     {| descs := descs h; objs := snd (Slots.run prog (objs h)) |}).
Proof.
  induction prog as [| s prog IH]; intros h Hc.
  - destruct h; reflexivity.
  - cbn [run Slots.run]. rewrite (exec_on_objs _ _ _ _ Hc).
    destruct (Slots.exec s (objs h)) as [o os]. cbn [fst snd].
    rewrite IH by (eapply score_class_descs; [| exact Hc]; reflexivity).
    cbn [objs descs]. destruct (Slots.run prog os) as [outs os']. reflexivity.
Qed.

(** C10. [BasketballGameA] and [BasketballGameB] cannot be told apart: once
    [named_descriptors] has run, each [NonNegativeField] of [BasketballGameB]
    carries the name of the attribute it is bound to, and every sequence of
    constructions, reads and writes of the three scores yields the same
    outcomes (values read, exceptions raised) and the same instances with both
    classes. *)
Theorem BasketballGameA_B_equivalent (depth : nat) (h0 : heap) (prog : list stmt) :
  exists A B h,
    notebook_classes h0 = (inr (A, B), h)
    /\ (forall f, exists r,
          find_attr [B] (score_name f) = Some (CField r)
          /\ descs h !! r = Some {| field := score_name f |})
    /\ fst (run (S depth) A prog h) = fst (run (S depth) B prog h)
    /\ objs (snd (run (S depth) A prog h)) = objs (snd (run (S depth) B prog h)).
Proof.
  destruct (notebook_classes_defined h0) as (A & B & h & Hrun & _ & HA & HB).
  exists A, B, h. split; [exact Hrun |]. split; [exact (proj1 HB) |].
  rewrite (run_on_objs A depth prog h HA), (run_on_objs B depth prog h HB).
  split; reflexivity.
Qed.

Lemma preserves_bind {St A B} (I : St -> Prop) (m : M St A) (k : A -> M St B) :
  preserves I m -> (forall a, preserves I (k a)) -> preserves I (bind m k).
Proof.
  intros Hm Hk s Hs. unfold bind. specialize (Hm s Hs).
  destruct (m s) as [[e | a] s']; cbn [snd] in *; [exact Hm | now apply Hk].
Qed.

Lemma preserves_ret {St A} (I : St -> Prop) (a : A) : preserves I (ret a).
Proof. intros s Hs. exact Hs. Qed.

Lemma put_validated x f v : preserves validated (Slots.put x f v).
Proof.
  intros os Hos. unfold Slots.put, bind, lt_zero, ret, raise.
  destruct (below_zero v) as [[|] |] eqn:Hz; try exact Hos.
  destruct (os !! x) as [d |] eqn:Hx; [| exact Hos]. cbn [snd].
  intros x' d' f' v' Hx' Hv'.
  destruct (decide (x' = x)) as [-> | Hne].
  - rewrite list_lookup_insert_eq in Hx' by (now apply lookup_lt_Some in Hx).
    injection Hx' as <-.
    destruct (decide (score_name f = score_name f')) as [He | Hnf].
    + rewrite He, lookup_insert_eq in Hv'. injection Hv' as <-.
      unfold passes. now rewrite Hz.
    + rewrite lookup_insert_ne in Hv' by exact Hnf. eapply Hos; eauto.
  - rewrite list_lookup_insert_ne in Hx' by congruence. eapply Hos; eauto.
Qed.

Lemma create_validated p r s : preserves validated (Slots.create p r s).
Proof.
  unfold Slots.create. apply preserves_bind.
  - intros os Hos. cbn [snd]. intros x d f v Hx Hv.
    apply lookup_app_Some in Hx as [Hx | [_ Hx]]; [eapply Hos; eauto |].
    apply list_lookup_singleton_Some in Hx as [_ <-].
    rewrite lookup_empty in Hv. discriminate.
  - intros x. repeat (apply preserves_bind; [apply put_validated | intros _]).
    apply preserves_ret.
Qed.

Lemma exec_validated s os : validated os -> validated (snd (Slots.exec s os)).
Proof.
  intros Hos. destruct s as [p r s | x f | x f v]; unfold Slots.exec.
  - pose proof (create_validated p r s os Hos) as H.
    destruct (Slots.create p r s os) as [[e | y] os']; exact H.
  - unfold Slots.get. destruct (os !! x) as [d |]; [| exact Hos].
    destruct (d !! score_name f); exact Hos.
  - pose proof (put_validated x f v os Hos) as H.
    destruct (Slots.put x f v os) as [[e | y] os']; exact H.
Qed.

Lemma run_validated prog : forall os, validated os -> validated (snd (Slots.run prog os)).
Proof.
  induction prog as [| s prog IH]; intros os Hos; [exact Hos |].
  cbn [Slots.run]. pose proof (exec_validated s os Hos) as H.
  destruct (Slots.exec s os) as [o os']. cbn [snd] in H.
  specialize (IH os' H). destruct (Slots.run prog os') as [outs os'']. exact IH.
Qed.

Lemma passes_non_negative_or_nan v :
  passes v = true <-> is_non_negative v = true \/ v = nan.
Proof.
  unfold nan. split.
  - destruct v as [| b | z | f | | | |]; try discriminate; cbn.
    + auto.
    + unfold passes. cbn. intros H. left. apply Z.leb_le.
      destruct (Z.ltb_spec z 0); [discriminate | lia].
    + destruct f as [[|] | [|] | | [|] m e]; cbn; auto; discriminate.
  - intros [H | ->]; [now apply is_non_negative_passes | reflexivity].
Qed.

(** C1, as the code has it. [NonNegativeField.__set__] stores a value when the
    test [value < 0] is [False], which is not the same as [value >= 0]: whatever
    constructions, reads and writes of [points], [rebounds] and [steals] a
    program runs on [BasketballGameA] or on [BasketballGameB], every score
    stored in the [__dict__] of an instance is one that passed this test,
    provided this held of the instances there were at the start; and the values
    that pass are the non-negative ones and NaN. *)
Theorem stored_scores_not_below_zero (depth : nat) (h0 : heap) (prog : list stmt) :
  validated (objs h0) ->
  exists A B h,
    notebook_classes h0 = (inr (A, B), h)
    /\ validated (objs (snd (run (S depth) A prog h)))
    /\ validated (objs (snd (run (S depth) B prog h)))
    /\ (forall v, passes v = true <-> is_non_negative v = true \/ v = nan).
Proof.
  intros H0.
  destruct (notebook_classes_defined h0) as (A & B & h & Hrun & Hobjs & HA & HB).
  exists A, B, h. split; [exact Hrun |].
  rewrite (run_on_objs A depth prog h HA), (run_on_objs B depth prog h HB).
  cbn [snd objs]. rewrite Hobjs.
  split; [now apply run_validated |]. split; [now apply run_validated |].
  exact passes_non_negative_or_nan.
Qed.

(** C1, as the claim words it, fails: [BasketballGameA(float('nan'), 0, 0)] is
    constructed, and so is the same [BasketballGameB]; the instance holds NaN
    under [points], and NaN is not [>= 0]. *)
Lemma nan_score_is_stored :
  run 1 notebook_A [New nan (VInt 0) (VInt 0); Get 0 Points] notebook_heap
  = ([Constructed 0%nat; Read nan],
     {| descs := descs notebook_heap;
        objs := [ <["steals" := VInt 0]> (<["rebounds" := VInt 0]> {["points" := nan]}) ] |})
  /\ run 1 notebook_B [New nan (VInt 0) (VInt 0); Get 0 Points] notebook_heap
     = ([Constructed 0%nat; Read nan],
        {| descs := descs notebook_heap;
           objs := [ <["steals" := VInt 0]>
                       (<["rebounds" := VInt 0]> {["points" := nan]}) ] |})
  /\ is_non_negative nan = false.
Proof. vm_compute. repeat split. Qed.

(** Without [named_descriptors] the three fields of [BasketballGameB] share the
    key [''] of the instance [__dict__]: the last score written is read back
    under every name. *)
Example undecorated_B_fields_collide :
  fst (run 1 (fst undecorated_B)
         [New (VInt 100) (VInt 30) (VInt 10); Get 0 Points] (snd undecorated_B))
  = [Constructed 0%nat; Read (VInt 10)].
Proof. vm_compute. reflexivity. Qed.

Example game_heap_instance : objs game_heap !! 0%nat = Some game_dict.
Proof. vm_compute. reflexivity. Qed.

(** ** The theorems at the notebook's own data *)

Lemma stored_scores_not_below_zero_notebook :
  validated (objs empty_heap)
  /\ exists A B h,
       notebook_classes empty_heap = (inr (A, B), h)
       /\ validated (objs (snd (run 1 A score_cell h)))
       /\ validated (objs (snd (run 1 B score_cell h)))
       /\ (forall v, passes v = true <-> is_non_negative v = true \/ v = nan).
Proof.
  assert (validated (objs empty_heap)) as H by (intros x d f v Hx; discriminate Hx).
  split; [exact H | exact (stored_scores_not_below_zero 0 empty_heap score_cell H)].
Defined.

Lemma validators_reject_negative_notebook :
  objs game_heap !! ref (instance_of 1 [notebook_A] 0) = Some game_dict
  /\ objs game_heap !! 0%nat = Some game_dict
  /\ NonNegativeField.__set__ {| field := "points" |} (instance_of 1 [notebook_A] 0)
       (VInt 0) game_heap
     = (inr tt, with_dict game_heap 0 (<["points" := VInt 0]> game_dict)).
Proof.
  split; [vm_compute; reflexivity |]. split; [vm_compute; reflexivity |].
  apply (validators_reject_negative {| field := "points" |}
           (instance_of 1 [notebook_A] 0) 0 0 Points game_dict game_dict (VInt 0)
           game_heap);
    vm_compute; reflexivity.
Defined.

Lemma Mapping_init_survives_override_notebook :
  to_list (ints [1; 2]) = Some [VInt 1; VInt 2]
  /\ new 2 MappingSubclass.mro [ints [1; 2]] empty_heap
     = (inr 0%nat, {| descs := [];
                      objs := [{["items_list" := VList [VInt 1; VInt 2]]}] |}).
Proof.
  split; [reflexivity |].
  apply (Mapping_init_survives_override 0 (ints [1; 2]) [VInt 1; VInt 2] empty_heap).
  reflexivity.
Defined.

Lemma MyProperty_attribute_access_game :
  find_attr BasketballGame.mro "points" = Some (CProperty BasketballGame.points)
  /\ forall v h,
       setattr (instance_of 2 BasketballGame.mro 0) "points" v h
       = discard (BasketballGame.points_setter (instance_of 1 BasketballGame.mro 0) v h).
Proof.
  split; [reflexivity |].
  apply (MyProperty_attribute_access BasketballGame.mro "points" BasketballGame.points
           1 0 eq_refl).
  reflexivity.
Defined.

Lemma rejected_write_changes_nothing_notebook :
  find_attr [notebook_A] "points" = Some (CField 0)
  /\ descs game_heap !! 0%nat = Some {| field := "points" |}
  /\ objs game_heap !! 0%nat = Some game_dict
  /\ is_negative (VInt (-5)) = true
  /\ setattr (instance_of 1 [notebook_A] 0) "points" (VInt (-5)) game_heap
     = (inl rejected, game_heap).
Proof.
  repeat (split; [vm_compute; reflexivity |]).
  apply (rejected_write_changes_nothing [notebook_A] "points" 0 {| field := "points" |}
           0 0 game_dict (VInt (-5)) game_heap);
    vm_compute; reflexivity.
Defined.

Lemma NonNegativeField_set_then_get_notebook :
  find_attr [notebook_A] "points" = Some (CField 0)
  /\ descs game_heap !! 0%nat = Some {| field := "points" |}
  /\ objs game_heap !! 0%nat = Some game_dict
  /\ is_non_negative (VInt 7) = true
  /\ getattr (instance_of 1 [notebook_A] 0) "points"
       (with_dict game_heap 0 (<["points" := VInt 7]> game_dict))
     = (inr (VInt 7), with_dict game_heap 0 (<["points" := VInt 7]> game_dict)).
Proof.
  repeat (split; [vm_compute; reflexivity |]).
  apply (NonNegativeField_set_then_get [notebook_A] "points" 0 0 0 game_dict (VInt 7)
           game_heap);
    vm_compute; reflexivity.
Defined.

(** * More properties of the cells *)

Example shadowing_cell_output :
  fst (shadowing_cell 1 empty_heap)
  = inr ([VInt 1; VInt 2; VInt 1; VInt 3; VStr "z"], {["y" := VInt 3]}).
Proof. vm_compute. reflexivity. Qed.

Section MyPropertyDecorators.
Context {St Inst Owner Val : Type}.
Implicit Types (p : MyProperty.t St Inst Val) (a : Inst) (owner : Owner) (s : St).

(** X1. A property made from a getter alone, as [@MyProperty] makes it, is read-only:
    assignment and deletion raise their [AttributeError] and leave the state.
    After [.setter(f)] the read is the same, the assignment is the call of [f],
    and deletion still raises. *)
Theorem MyProperty_getter_only_is_read_only (g : Inst -> M St Val)
    (f : Inst -> Val -> M St Val) a owner (v : Val) s :
  let p0 := MyProperty.__init__ (Some g) None None in
  let p1 := MyProperty.setter p0 f in
  MyProperty.__set__ p0 a v s = (inl (AttributeError "can't set attribute"), s)
  /\ MyProperty.__delete__ p0 a s = (inl (AttributeError "can't delete attribute"), s)
  /\ MyProperty.__get__ p1 (Some a) owner s = MyProperty.__get__ p0 (Some a) owner s
  /\ MyProperty.__set__ p1 a v s = discard (f a v s)
  /\ MyProperty.__delete__ p1 a s = (inl (AttributeError "can't delete attribute"), s).
Proof.
  intros p0 p1. repeat split.
Qed.

(** X2. [getter], [setter] and [deleter] each replace one function of a property and
    keep the other two: chained from any property they build
    [MyProperty(g, f, d)], two different ones commute, and of two applications of
    the same one the last wins. *)
Theorem MyProperty_decorators_compose p (g g' : Inst -> M St Val)
    (f f' : Inst -> Val -> M St Val) (d d' : Inst -> M St Val) :
  MyProperty.deleter (MyProperty.setter (MyProperty.getter p g) f) d
  = MyProperty.__init__ (Some g) (Some f) (Some d)
  /\ MyProperty.getter (MyProperty.setter p f) g = MyProperty.setter (MyProperty.getter p g) f
  /\ MyProperty.getter (MyProperty.deleter p d) g = MyProperty.deleter (MyProperty.getter p g) d
  /\ MyProperty.setter (MyProperty.deleter p d) f = MyProperty.deleter (MyProperty.setter p f) d
  /\ MyProperty.getter (MyProperty.getter p g') g = MyProperty.getter p g
  /\ MyProperty.setter (MyProperty.setter p f') f = MyProperty.setter p f
  /\ MyProperty.deleter (MyProperty.deleter p d') d = MyProperty.deleter p d.
Proof. repeat split. Qed.

End MyPropertyDecorators.

Lemma read_attr_not_attribute_error mro self name h :
  (forall msg, fst (getattr_ mro self name h) <> inl (AttributeError msg)) ->
  read_attr mro self name h = getattr_ mro self name h.
Proof.
  intros H. unfold read_attr.
  destruct (getattr_ mro self name h) as [[e | v] h'] eqn:E; [| reflexivity].
  destruct e; try reflexivity. exfalso. apply (H msg). reflexivity.
Qed.

(** X3. A validated field read before it was ever written raises [KeyError] with the
    name of the field (not [AttributeError], so a [__getattr__] of the class
    would not be consulted); [del] on it raises [AttributeError] since the
    descriptor has no [__delete__]; read on the class, with [None] for the
    instance, it raises [AttributeError].  None of these changes the heap. *)
Theorem NonNegativeField_unset_field_raises_KeyError (mro : list klass) (x : string)
    (r : nat) (fld : NonNegativeField) (depth l : nat) (d : gmap string val)
    (h : heap) :
  let a := instance_of (S depth) mro l in
  find_attr mro x = Some (CField r) ->
  descs h !! r = Some fld ->
  objs h !! l = Some d ->
  d !! field fld = None ->
  getattr a x h = (inl (KeyError (field fld)), h)
  /\ read_attr mro (instance_of depth mro l) x h = (inl (KeyError (field fld)), h)
  /\ delattr a x h = (inl (AttributeError "__delete__"), h)
  /\ NonNegativeField.__get__ fld None mro h
     = (inl (AttributeError "'NoneType' object has no attribute '__dict__'"), h).
Proof.
  intros a Hx Hr Hl Hd. subst a.
  assert (getattr (instance_of (S depth) mro l) x h = (inl (KeyError (field fld)), h)) as Hg.
  { rewrite (getattr_field _ _ _ _ _ _ _ Hx Hr), Hl, Hd. reflexivity. }
  repeat split.
  - exact Hg.
  - rewrite getattr_S in Hg. rewrite read_attr_not_attribute_error; [exact Hg |].
    intros msg. rewrite Hg. discriminate.
  - rewrite delattr_S. unfold delattr_. rewrite Hx. reflexivity.
Qed.


Lemma set_field_ok r name h d0 :
  descs h !! r = Some d0 ->
  set_field r name h
  = (inr tt, {| descs := <[r := {| field := name |}]> (descs h); objs := objs h |}).
Proof. intros H. unfold set_field. now rewrite H. Qed.

Lemma fields_allocated_descs d h h' :
  length (descs h') = length (descs h) -> fields_allocated d h -> fields_allocated d h'.
Proof. unfold fields_allocated. intros ->. tauto. Qed.

Lemma naming_loop d : forall h,
  fields_allocated d h ->
  exists ds,
    for_each d (fun item => match item.2 with
                            | CField attr => set_field attr item.1
                            | _ => ret tt
                            end) h
    = (inr tt, {| descs := ds; objs := objs h |})
    /\ length ds = length (descs h)
    /\ forall r, ds !! r = match last_binding d r with
                           | Some name => (fun _ => {| field := name |}) <$> descs h !! r
                           | None => descs h !! r
                           end.
Proof.
  induction d as [| [name a] d IH]; intros h Hal.
  - exists (descs h). split; [destruct h; reflexivity |]. split; reflexivity.
  - apply Forall_cons in Hal as [Ha Hal]. cbn [for_each]. unfold bind at 1.
    cbn [fst snd] in *.
    assert (exists h1, (match a with CField attr => set_field attr name | _ => ret tt end) h
                       = (inr tt, h1)
                       /\ objs h1 = objs h /\ length (descs h1) = length (descs h)
                       /\ forall r, descs h1 !! r
                                    = match a with
                                      | CField r' => if Nat.eqb r' r
                                                     then (fun _ => {| field := name |}) <$> descs h !! r
                                                     else descs h !! r
                                      | _ => descs h !! r
                                      end) as (h1 & -> & Ho & Hlen & Hd).
    { destruct a as [r' | | |]; try (exists h; repeat split; reflexivity).
      destruct (lookup_lt_is_Some_2 _ _ Ha) as [d0 Hd0].
      eexists. split; [apply (set_field_ok _ _ _ _ Hd0) |]. cbn [objs descs].
      split; [reflexivity |]. split; [apply length_insert |].
      intros r. destruct (Nat.eqb_spec r' r) as [-> | Hne].
      - rewrite list_lookup_insert_eq by exact Ha. now rewrite Hd0.
      - now rewrite list_lookup_insert_ne. }
    destruct (IH h1) as (ds & Hrun & Hlds & Hds).
    { eapply fields_allocated_descs; eauto. }
    exists ds. rewrite Hrun, Ho. split; [reflexivity |]. split; [congruence |].
    intros r. rewrite Hds. cbn [last_binding fst snd].
    destruct (last_binding d r) as [n |].
    + rewrite Hd. destruct a; try reflexivity.
      destruct (Nat.eqb r0 r); [| reflexivity]. now destruct (descs h !! r).
    + rewrite Hd. destruct a; try reflexivity.
      destruct (Nat.eqb r0 r); reflexivity.
Qed.

(** X4. [named_descriptors] returns the class it was given, leaves the instances
    alone, and sets the [field] of every [NonNegativeField] of the class
    [__dict__] to the name of the last entry bound to it; descriptors that the
    class does not hold keep their [field]. *)
Theorem named_descriptors_names_fields (cls : klass) (h : heap) :
  fields_allocated (k_dict cls) h ->
  exists ds,
    named_descriptors cls h = (inr cls, {| descs := ds; objs := objs h |})
    /\ length ds = length (descs h)
    /\ forall r, ds !! r = match last_binding (k_dict cls) r with
                           | Some name => (fun _ => {| field := name |}) <$> descs h !! r
                           | None => descs h !! r
                           end.
Proof.
  intros Hal. destruct (naming_loop (k_dict cls) h Hal) as (ds & Hrun & Hlen & Hds).
  exists ds. unfold named_descriptors, bind. rewrite Hrun. auto.
Qed.

(** X5. Decorating twice is decorating once: a second run of [named_descriptors] on
    the same class leaves the heap exactly as the first run left it. *)
Theorem named_descriptors_idempotent (cls : klass) (h : heap) :
  fields_allocated (k_dict cls) h ->
  exists h',
    named_descriptors cls h = (inr cls, h')
    /\ named_descriptors cls h' = (inr cls, h').
Proof.
  intros Hal. destruct (naming_loop (k_dict cls) h Hal) as (ds & Hrun & Hlen & Hds).
  set (h' := {| descs := ds; objs := objs h |}).
  assert (fields_allocated (k_dict cls) h') as Hal'.
  { eapply fields_allocated_descs; [| exact Hal]. exact Hlen. }
  destruct (naming_loop (k_dict cls) h' Hal') as (ds' & Hrun' & Hlen' & Hds').
  exists h'. unfold named_descriptors, bind. rewrite Hrun, Hrun'. fold h'.
  split; [reflexivity |]. cbn [objs]. unfold ret, h'. do 2 f_equal.
  apply list_eq. intros r. rewrite Hds'. unfold h'. cbn [descs]. rewrite Hds.
  destruct (last_binding (k_dict cls) r); [| reflexivity].
  now destruct (descs h !! r).
Qed.

(** X6. A [NonNegativeField] stores under its [field], not under the attribute it is
    bound to: two attributes whose descriptors have the same [field] share one
    entry of the instance [__dict__] (a write through one is read through the
    other), and two with different [field]s do not disturb each other. *)
Theorem fields_share_storage_by_name (mro : list klass) (x y : string) (r r' : nat)
    (fld fld' : NonNegativeField) (depth l : nat) (d : gmap string val) (v : val)
    (h : heap) :
  let a := instance_of (S depth) mro l in
  let h' := snd (setattr a x v h) in
  find_attr mro x = Some (CField r) ->
  descs h !! r = Some fld ->
  find_attr mro y = Some (CField r') ->
  descs h !! r' = Some fld' ->
  objs h !! l = Some d ->
  is_non_negative v = true ->
  (field fld = field fld' -> getattr a y h' = (inr v, h'))
  /\ (field fld <> field fld' -> fst (getattr a y h') = fst (getattr a y h)).
Proof.
  intros a h' Hx Hr Hy Hr' Hl Hv. subst a h'.
  pose proof (is_non_negative_cases _ Hv) as Hz.
  rewrite (setattr_field _ _ _ _ _ _ _ _ Hx Hr), Hz, (dict_setitem_ok _ _ _ _ _ Hl).
  cbn [snd].
  assert (objs (with_dict h l (<[field fld := v]> d)) !! l
          = Some (<[field fld := v]> d)) as Hl'.
  { eapply with_dict_lookup; eauto. }
  split; intros Hf.
  - rewrite (getattr_field _ _ _ fld' _ _ _ Hy) by exact Hr'.
    rewrite Hl', <- Hf, lookup_insert_eq. reflexivity.
  - rewrite (getattr_field _ _ _ fld' _ _ _ Hy) by exact Hr'.
    rewrite (getattr_field _ _ _ fld' _ _ _ Hy) by exact Hr'.
    rewrite Hl', Hl, lookup_insert_ne by exact Hf.
    destruct (d !! field fld'); reflexivity.
Qed.

Lemma lookup_app_length {A} (l1 l2 : list A) : (l1 ++ l2) !! length l1 = l2 !! 0%nat.
Proof. rewrite <- (Nat.add_0_r (length l1)). apply lookup_app_plus. Qed.

(** X7. The class body of [BasketballGameB] without its decorator: the three
    descriptors all have the default [field] [''], so a construction with three
    valid scores leaves a single entry in the instance [__dict__], and [points],
    [rebounds] and [steals] all read the last score assigned, [steals]. *)
Theorem undecorated_fields_collide (depth : nat) (h0 : heap) (p r s : val) :
  is_non_negative p = true ->
  is_non_negative r = true ->
  is_non_negative s = true ->
  exists B h,
    BasketballGameB.body h0 = (inr B, h)
    /\ let x := length (objs h0) in
       let built := new (S depth) [B] [p; r; s] h in
       fst built = inr x
       /\ objs (snd built) = objs h0 ++ [{["" := s]}]
       /\ forall f, getattr (instance_of (S depth) [B] x) (score_name f) (snd built)
                    = (inr s, snd built).
Proof.
  intros Hp Hr Hs.
  pose proof (is_non_negative_cases _ Hp) as Hzp.
  pose proof (is_non_negative_cases _ Hr) as Hzr.
  pose proof (is_non_negative_cases _ Hs) as Hzs.
  destruct h0 as [ds os]. eexists _, _. split.
  { unfold BasketballGameB.body, bind, alloc_descriptor, ret.
    cbn -[length lookup insert app].
    rewrite <- !app_assoc. cbn [app]. rewrite !length_app. cbn [length]. reflexivity. }
  cbn [objs]. set (B := {| k_name := "BasketballGameB" |}).
  set (h := {| descs := ds ++ _; objs := os |}).
  set (x := length os).
  assert (forall f, exists r, find_attr [B] (score_name f) = Some (CField r)
                              /\ forall h', descs h' = descs h ->
                                            descs h' !! r = Some {| field := "" |})
    as HB.
  { intros f. destruct f; eexists; (split; [reflexivity |]); intros h' ->;
      unfold h; cbn [descs].
    - now rewrite lookup_app_length.
    - now rewrite lookup_app_plus.
    - now rewrite lookup_app_plus. }
  assert (forall f v d h', below_zero v = Some false -> descs h' = descs h ->
            objs h' !! x = Some d ->
            setattr (instance_of (S depth) [B] x) (score_name f) v h'
            = (inr tt, with_dict h' x (<["" := v]> d))) as Hput.
  { intros f v d h' Hz Hd Hx. destruct (HB f) as (r0 & Hf & Hr0).
    rewrite (setattr_field _ _ _ _ _ _ _ _ Hf (Hr0 h' Hd)), Hz.
    now apply dict_setitem_ok. }
  assert (new (S depth) [B] [p; r; s] h
          = (inr x, {| descs := descs h; objs := os ++ [{["" := s]}] |})) as Hnew.
  { unfold new, bind at 1, alloc_object.
    change (find_attr [B] "__init__")
      with (Some (CFunction "BasketballGameB.__init__" BasketballGameB.__init__)).
    change (objs h) with os. fold x.
    set (h1 := {| descs := descs h; objs := os ++ [∅] |}).
    assert (objs h1 !! x = Some ∅) as H1 by (unfold h1, x; cbn [objs]; now rewrite lookup_app_length).
    unfold bind at 1, BasketballGameB.__init__.
    unfold bind at 1.
    change "points" with (score_name Points). change "rebounds" with (score_name Rebounds).
    change "steals" with (score_name Steals).
    rewrite (Hput Points _ ∅ h1 Hzp eq_refl H1).
    unfold bind at 1.
    rewrite (Hput Rebounds _ _ (with_dict h1 x _) Hzr eq_refl
               (with_dict_lookup _ _ _ _ H1)).
    rewrite with_dict_twice.
    unfold bind at 1.
    rewrite (Hput Steals _ _ (with_dict h1 x _) Hzs eq_refl
               (with_dict_lookup _ _ _ _ H1)).
    rewrite with_dict_twice, !insert_insert_eq. unfold ret, with_dict, h1. cbn [descs objs].
    do 2 f_equal. unfold x. rewrite <- (Nat.add_0_r (length os)), insert_app_r.
    reflexivity. }
  rewrite Hnew. cbn [fst snd objs]. split; [reflexivity |]. split; [reflexivity |].
  intros f. destruct (HB f) as (r0 & Hf & Hr0).
  set (hb := {| descs := descs h; objs := os ++ [{["" := s]}] |}).
  rewrite (getattr_field _ _ _ _ _ _ _ Hf (Hr0 hb eq_refl)). cbn [objs field hb].
  unfold x. rewrite lookup_app_length. cbn. now rewrite lookup_singleton_eq.
Qed.


Lemma BasketballGame_get_cases depth l f h :
  getattr (instance_of (S (S depth)) BasketballGame.mro l) (score_name f) h
  = match objs h !! l with
    | Some d =>
        match d !! private_name f with
        | Some w => (inr w, h)
        | None => (inl (no_attribute BasketballGame.mro (private_name f)), h)
        end
    | None => (inl ReferenceError, h)
    end.
Proof.
  rewrite getattr_S.
  destruct f;
    try change (private_name Points) with "_points";
    try change (private_name Rebounds) with "_rebounds";
    try change (private_name Steals) with "_steals";
    cbn -[instance_of]; unfold bind, ret;
    unfold BasketballGame.points_getter, BasketballGame.rebounds_getter,
      BasketballGame.steals_getter;
    rewrite getattr_S; unfold getattr_; cbn -[instance_of];
    unfold bind, instance_dict, ret, raise; rewrite ref_instance_of;
    (destruct (objs h !! l) as [d |]; [| reflexivity]);
    match goal with |- context [d !! ?k] => destruct (d !! k) end; reflexivity.
Qed.

Lemma BasketballGame_put_ok depth l f v h d :
  objs h !! l = Some d -> passes v = true ->
  setattr (instance_of (S (S depth)) BasketballGame.mro l) (score_name f) v h
  = (inr tt, with_dict h l (<[private_name f := v]> d)).
Proof.
  intros Hl Hv. rewrite BasketballGame_put, (passes_cases _ Hv).
  now apply dict_setitem_ok.
Qed.

Lemma BasketballGame_put_fail depth l f v h :
  passes v = false ->
  exists e, setattr (instance_of (S (S depth)) BasketballGame.mro l) (score_name f) v h
            = (inl e, h).
Proof.
  intros Hv. rewrite BasketballGame_put. unfold passes in Hv.
  destruct (below_zero v) as [[|] |]; try discriminate; eauto.
Qed.

Lemma private_name_inj f g : private_name f = private_name g -> f = g.
Proof. destruct f, g; (reflexivity || discriminate). Qed.

(** X8. [BasketballGame(points, rebounds, steals, blocks)] returns an instance exactly
    when each of the three scores passes the test of its setter, that is when
    [score < 0] is [False] (a non-negative integer, boolean or float, or NaN);
    the instance then holds [_points], [_rebounds], [_steals] and [blocks].
    [blocks] is stored as given: it is not validated. *)
Theorem BasketballGame_constructor (depth : nat) (p r s b : val) (h : heap) :
  let x := length (objs h) in
  let built := new (S (S depth)) BasketballGame.mro [p; r; s; b] h in
  let valid := passes p && passes r && passes s in
  (fst built = inr x <-> valid = true)
  /\ (valid = true ->
      built = (inr x,
               {| descs := descs h;
                  objs := objs h ++ [ <["blocks" := b]>
                                        (<["_steals" := s]>
                                           (<["_rebounds" := r]> {["_points" := p]})) ] |}))
  /\ (valid = false -> exists e, fst built = inl e).
Proof.
  intros x built valid.
  set (h1 := {| descs := descs h; objs := objs h ++ [∅] |}).
  assert (objs h1 !! x = Some ∅) as H1.
  { unfold h1, x. cbn [objs]. now rewrite lookup_app_length. }
  assert (built
          = match BasketballGame.__init__ (instance_of (S (S depth)) BasketballGame.mro x)
                    [p; r; s; b] h1 with
            | (inr _, h') => (inr x, h')
            | (inl e, h') => (inl e, h')
            end) as Hb by reflexivity.
  unfold BasketballGame.__init__ in Hb.
  change "points" with (score_name Points) in Hb.
  change "rebounds" with (score_name Rebounds) in Hb.
  change "steals" with (score_name Steals) in Hb.
  unfold bind at 1 in Hb.
  destruct (passes p) eqn:Hp; cycle 1.
  { destruct (BasketballGame_put_fail depth x Points p h1 Hp) as [e He].
    rewrite He in Hb. rewrite Hb. subst valid. cbn. repeat split; try discriminate.
    eauto. }
  rewrite (BasketballGame_put_ok depth x Points p h1 ∅ H1 Hp) in Hb.
  unfold bind at 1 in Hb.
  destruct (passes r) eqn:Hr; cycle 1.
  { destruct (BasketballGame_put_fail depth x Rebounds r
                (with_dict h1 x (<[private_name Points := p]> ∅)) Hr) as [e He].
    rewrite He in Hb. rewrite Hb. subst valid. cbn. repeat split; try discriminate.
    eauto. }
  rewrite (BasketballGame_put_ok depth x Rebounds r _ _ (with_dict_lookup _ _ _ _ H1) Hr)
    in Hb.
  rewrite with_dict_twice in Hb. unfold bind at 1 in Hb.
  destruct (passes s) eqn:Hs; cycle 1.
  { destruct (BasketballGame_put_fail depth x Steals s
                (with_dict h1 x (<[private_name Rebounds := r]>
                                   (<[private_name Points := p]> ∅))) Hs) as [e He].
    rewrite He in Hb. rewrite Hb. subst valid. cbn. repeat split; try discriminate.
    eauto. }
  rewrite (BasketballGame_put_ok depth x Steals s _ _ (with_dict_lookup _ _ _ _ H1) Hs)
    in Hb.
  rewrite with_dict_twice in Hb. unfold bind at 1 in Hb.
  rewrite setattr_S in Hb. unfold setattr_ at 1 in Hb.
  change (find_attr BasketballGame.mro "blocks") with (@None cattr) in Hb.
  rewrite ref_instance_of in Hb.
  rewrite (dict_setitem_ok _ _ _ _ _ (with_dict_lookup _ _ _ _ H1)) in Hb.
  rewrite with_dict_twice in Hb. unfold ret in Hb.
  assert (built = (inr x, {| descs := descs h;
                             objs := objs h ++ [ <["blocks" := b]>
                                        (<["_steals" := s]>
                                           (<["_rebounds" := r]> {["_points" := p]})) ] |}))
    as Hbuilt.
  { rewrite Hb. unfold with_dict, h1. cbn [descs objs]. do 2 f_equal.
    unfold x. rewrite <- (Nat.add_0_r (length (objs h))), insert_app_r. reflexivity. }
  rewrite Hbuilt. subst valid. cbn. repeat split; discriminate.
Qed.

(** X9. Write, then read, on a property of [BasketballGame]: after [game.f = v] with
    [v] zero or more, [game.f] is [v]; the other two scores read as before and
    only the entry [_f] of the instance [__dict__] has changed. *)
Theorem BasketballGame_set_then_get (depth l : nat) (f : score) (v : val)
    (d : gmap string val) (h : heap) :
  let game := instance_of (S (S depth)) BasketballGame.mro l in
  let h' := with_dict h l (<[private_name f := v]> d) in
  objs h !! l = Some d ->
  is_non_negative v = true ->
  setattr game (score_name f) v h = (inr tt, h')
  /\ getattr game (score_name f) h' = (inr v, h')
  /\ (forall g, g <> f ->
        fst (getattr game (score_name g) h') = fst (getattr game (score_name g) h))
  /\ (forall k, k <> private_name f -> (<[private_name f := v]> d) !! k = d !! k).
Proof.
  intros game h' Hl Hv. subst game.
  assert (objs h' !! l = Some (<[private_name f := v]> d)) as Hl'.
  { eapply with_dict_lookup; eauto. }
  repeat split.
  - apply BasketballGame_put_ok; [exact Hl | now apply is_non_negative_passes].
  - rewrite BasketballGame_get_cases, Hl', lookup_insert_eq. reflexivity.
  - intros g Hg. rewrite !BasketballGame_get_cases, Hl', Hl.
    rewrite lookup_insert_ne by (intros E; apply Hg; symmetry; now apply private_name_inj).
    destruct (d !! private_name g); reflexivity.
  - intros k Hk. now apply lookup_insert_ne.
Qed.

(** X10. A score of a [BasketballGame] read before it was written raises
    [AttributeError] for the private attribute behind it; [del game.f] raises
    [AttributeError], the properties having no deleter.  Neither changes the
    heap. *)
Theorem BasketballGame_unset_and_delete (depth l : nat) (f : score)
    (d : gmap string val) (h : heap) :
  let game := instance_of (S (S depth)) BasketballGame.mro l in
  objs h !! l = Some d ->
  (d !! private_name f = None ->
     getattr game (score_name f) h
     = (inl (AttributeError ("'BasketballGame' object has no attribute '"
                             +:+ private_name f +:+ "'")), h))
  /\ delattr game (score_name f) h = (inl (AttributeError "can't delete attribute"), h).
Proof.
  intros game Hl. subst game. split.
  - intros Hd. rewrite BasketballGame_get_cases, Hl, Hd. reflexivity.
  - rewrite delattr_S. destruct f; reflexivity.
Qed.

(** X11. The validation of [BasketballGame] guards the properties only: an assignment
    to [_points], [_rebounds] or [_steals] stores any value, a negative one
    included, and the property then reads that value. *)
Theorem BasketballGame_private_attribute_unchecked (depth l : nat) (f : score)
    (v : val) (d : gmap string val) (h : heap) :
  let game := instance_of (S (S depth)) BasketballGame.mro l in
  let h' := with_dict h l (<[private_name f := v]> d) in
  objs h !! l = Some d ->
  setattr game (private_name f) v h = (inr tt, h')
  /\ getattr game (score_name f) h' = (inr v, h').
Proof.
  intros game h' Hl. subst game h'. split.
  - rewrite setattr_S. unfold setattr_.
    assert (find_attr BasketballGame.mro (private_name f) = None) as -> by now destruct f.
    rewrite ref_instance_of. now apply dict_setitem_ok.
  - rewrite BasketballGame_get_cases.
    rewrite (with_dict_lookup _ _ _ _ Hl), lookup_insert_eq. reflexivity.
Qed.


Lemma Slots_put_ok x f v os d :
  os !! x = Some d -> passes v = true ->
  Slots.put x f v os = (inr tt, <[x := <[score_name f := v]> d]> os).
Proof.
  intros Hx Hv. unfold Slots.put, bind, lt_zero, ret.
  now rewrite (passes_cases _ Hv), Hx.
Qed.

Lemma Slots_put_fail x f v os :
  passes v = false -> exists e, Slots.put x f v os = (inl e, os).
Proof.
  intros Hv. unfold Slots.put, bind, lt_zero, ret, raise. unfold passes in Hv.
  destruct (below_zero v) as [[|] |]; try discriminate; eauto.
Qed.

Lemma Slots_put_state x f v os :
  snd (Slots.put x f v os)
  = if passes v
    then match os !! x with
         | Some d => <[x := <[score_name f := v]> d]> os
         | None => os
         end
    else os.
Proof.
  destruct (passes v) eqn:Hv.
  - destruct (os !! x) as [d |] eqn:Hx.
    + now rewrite (Slots_put_ok _ _ _ _ _ Hx Hv).
    + unfold Slots.put, bind, lt_zero, ret. now rewrite (passes_cases _ Hv), Hx.
  - destruct (Slots_put_fail x f v os Hv) as [e ->]. reflexivity.
Qed.

Lemma Slots_put_unchanged x f v os :
  fst (Slots.put x f v os) <> inr tt -> snd (Slots.put x f v os) = os.
Proof.
  intros H. rewrite Slots_put_state.
  destruct (passes v) eqn:Hv; [| reflexivity].
  destruct (os !! x) as [d |] eqn:Hx; [| reflexivity].
  rewrite (Slots_put_ok _ _ _ _ _ Hx Hv) in H. now destruct H.
Qed.

Lemma Slots_create_run p r s os :
  Slots.create p r s os
  = match Slots.put (length os) Points p (os ++ [∅]) with
    | (inl e, os1) => (inl e, os1)
    | (inr _, os1) =>
        match Slots.put (length os) Rebounds r os1 with
        | (inl e, os2) => (inl e, os2)
        | (inr _, os2) =>
            match Slots.put (length os) Steals s os2 with
            | (inl e, os3) => (inl e, os3)
            | (inr _, os3) => (inr (length os), os3)
            end
        end
    end.
Proof. reflexivity. Qed.

Lemma Slots_create_cases p r s os :
  let valid := passes p && passes r && passes s in
  (valid = true ->
     Slots.create p r s os
     = (inr (length os),
        os ++ [ <["steals" := s]> (<["rebounds" := r]> {["points" := p]}) ]))
  /\ (valid = false -> exists e os', Slots.create p r s os = (inl e, os')).
Proof.
  intros valid. subst valid. rewrite Slots_create_run.
  assert ((os ++ [∅ : gmap string val]) !! length os = Some ∅) as H1
    by now rewrite lookup_app_length.
  assert (forall d : gmap string val,
            (<[length os := d]> (os ++ [∅])) !! length os = Some d) as Hin.
  { intros d. apply list_lookup_insert_eq. rewrite length_app. cbn. lia. }
  destruct (passes p) eqn:Hp; cycle 1.
  { destruct (Slots_put_fail (length os) Points p (os ++ [∅]) Hp) as [e ->].
    cbn. split; [discriminate | eauto]. }
  rewrite (Slots_put_ok _ Points _ _ _ H1 Hp).
  destruct (passes r) eqn:Hr; cycle 1.
  { destruct (Slots_put_fail (length os) Rebounds r
                (<[length os := <[score_name Points := p]> ∅]> (os ++ [∅])) Hr) as [e ->].
    cbn. split; [discriminate | eauto]. }
  rewrite (Slots_put_ok _ Rebounds _ _ _ (Hin _) Hr), list_insert_insert_eq.
  destruct (passes s) eqn:Hs; cycle 1.
  { destruct (Slots_put_fail (length os) Steals s
                (<[length os := <[score_name Rebounds := r]>
                                  (<[score_name Points := p]> ∅)]> (os ++ [∅])) Hs)
      as [e ->].
    cbn. split; [discriminate | eauto]. }
  rewrite (Slots_put_ok _ Steals _ _ _ (Hin _) Hs), list_insert_insert_eq.
  cbn. split; [| discriminate]. intros _. f_equal.
  rewrite <- (Nat.add_0_r (length os)), insert_app_r. reflexivity.
Qed.

(** X12. [BasketballGameA(points, rebounds, steals)] and [BasketballGameB(...)] return
    an instance exactly when each of the three scores passes the test of
    [NonNegativeField.__set__], that is when [score < 0] is [False] (a
    non-negative integer, boolean or float, or NaN); its [__dict__] then holds
    the three scores under [points], [rebounds], [steals].  The descriptors are
    never changed by a construction. *)
Theorem score_record_constructor (depth : nat) (h0 : heap) (p r s : val) :
  exists A B h,
    notebook_classes h0 = (inr (A, B), h)
    /\ forall cls, cls = A \/ cls = B ->
       let x := length (objs h0) in
       let built := new (S depth) [cls] [p; r; s] h in
       let valid := passes p && passes r && passes s in
       (fst built = inr x <-> valid = true)
       /\ (valid = true ->
           objs (snd built)
           = objs h0 ++ [ <["steals" := s]> (<["rebounds" := r]> {["points" := p]}) ])
       /\ descs (snd built) = descs h.
Proof.
  destruct (notebook_classes_defined h0) as (A & B & h & Hrun & Hobjs & HA & HB).
  exists A, B, h. split; [exact Hrun |].
  intros cls Hcls x built valid.
  assert (score_class cls h) as Hc by (destruct Hcls as [-> | ->]; assumption).
  subst built. rewrite (new_on_objs _ _ _ _ _ _ Hc). unfold on_objs. rewrite Hobjs.
  destruct (Slots_create_cases p r s (objs h0)) as [Hok Hfail]. fold valid in Hok, Hfail.
  destruct valid eqn:Hv.
  - rewrite (Hok eq_refl). cbn. repeat split; reflexivity.
  - destruct (Hfail eq_refl) as (e & os' & ->). cbn.
    repeat split; try discriminate.
Qed.

(** X13. On [BasketballGameA] and [BasketballGameB], a read leaves the heap as it is,
    whatever it returns or raises, and so does every write that does not
    succeed. *)
Theorem score_reads_and_failures_change_nothing (depth : nat) (h0 : heap)
    (x : nat) (f : score) (v : val) :
  exists A B h,
    notebook_classes h0 = (inr (A, B), h)
    /\ forall cls, cls = A \/ cls = B ->
       snd (exec (S depth) cls (Get x f) h) = h
       /\ (fst (exec (S depth) cls (Put x f v) h) <> Written ->
           snd (exec (S depth) cls (Put x f v) h) = h).
Proof.
  destruct (notebook_classes_defined h0) as (A & B & h & Hrun & Hobjs & HA & HB).
  exists A, B, h. split; [exact Hrun |].
  intros cls Hcls.
  assert (score_class cls h) as Hc by (destruct Hcls as [-> | ->]; assumption).
  rewrite !(exec_on_objs _ _ _ _ Hc). cbn [fst snd]. split.
  - unfold Slots.exec, Slots.get. destruct (objs h !! x) as [d |]; [| now destruct h].
    destruct (d !! score_name f); now destruct h.
  - unfold Slots.exec. intros Hw.
    assert (snd (Slots.put x f v (objs h)) = objs h) as Hs.
    { apply Slots_put_unchanged. intros E. apply Hw.
      destruct (Slots.put x f v (objs h)) as [[e | []] os]; [discriminate | reflexivity]. }
    destruct (Slots.put x f v (objs h)) as [[e | u] os]; cbn [snd] in *;
      rewrite Hs; now destruct h.
Qed.

Lemma score_name_inj f g : score_name f = score_name g -> f = g.
Proof. destruct f, g; (reflexivity || discriminate). Qed.

Lemma Slots_run_two s1 s2 os :
  snd (Slots.run [s1; s2] os) = snd (Slots.exec s2 (snd (Slots.exec s1 os))).
Proof.
  cbn [Slots.run]. destruct (Slots.exec s1 os) as [o1 os1]. cbn [snd].
  destruct (Slots.exec s2 os1) as [o2 os2]. reflexivity.
Qed.

Lemma Slots_exec_put_state x f v os :
  snd (Slots.exec (Put x f v) os) = snd (Slots.put x f v os).
Proof. unfold Slots.exec. destruct (Slots.put x f v os) as [[e | u] os']; reflexivity. Qed.

Lemma Slots_puts_commute x y f g v w os :
  x <> y \/ f <> g ->
  snd (Slots.run [Put x f v; Put y g w] os) = snd (Slots.run [Put y g w; Put x f v] os).
Proof.
  intros Hne. rewrite !Slots_run_two, !Slots_exec_put_state, !Slots_put_state.
  destruct (passes v), (passes w); try reflexivity.
  destruct (decide (x = y)) as [-> | Hxy].
  - destruct Hne as [Hne | Hne]; [congruence |].
    destruct (os !! y) as [d |] eqn:Hy; [| now rewrite Hy].
    assert (y < length os)%nat as Hlt by now apply lookup_lt_Some in Hy.
    rewrite !list_lookup_insert_eq by exact Hlt.
    rewrite !list_insert_insert_eq. f_equal. apply insert_insert_ne.
    intros E. apply Hne. symmetry. now apply score_name_inj.
  - destruct (os !! x) as [d |] eqn:Hx, (os !! y) as [d' |] eqn:Hy;
      rewrite ?list_lookup_insert_ne by congruence; rewrite ?Hx, ?Hy; try reflexivity.
    apply list_insert_insert_ne. congruence.
Qed.

Lemma Slots_last_put_wins x f v w os :
  passes w = true ->
  snd (Slots.run [Put x f v; Put x f w] os) = snd (Slots.run [Put x f w] os).
Proof.
  intros Hw. rewrite Slots_run_two. cbn [Slots.run].
  destruct (Slots.exec (Put x f w) os) as [o os'] eqn:E. cbn [snd].
  assert (os' = snd (Slots.exec (Put x f w) os)) as -> by now rewrite E.
  rewrite !Slots_exec_put_state, !Slots_put_state, Hw.
  destruct (passes v); [| reflexivity].
  destruct (os !! x) as [d |] eqn:Hx; [| now rewrite Hx].
  assert (x < length os)%nat as Hlt by now apply lookup_lt_Some in Hx.
  rewrite list_lookup_insert_eq by exact Hlt.
  now rewrite list_insert_insert_eq, insert_insert_eq.
Qed.

(** X14. On [BasketballGameA] and [BasketballGameB], two writes to different fields or
    to different instances leave the same heap in either order, and a valid
    write makes an earlier write to the same field of the same instance
    irrelevant. *)
Theorem score_writes_commute_and_last_wins (depth : nat) (h0 : heap)
    (x y : nat) (f g : score) (v w : val) :
  exists A B h,
    notebook_classes h0 = (inr (A, B), h)
    /\ forall cls, cls = A \/ cls = B ->
       (x <> y \/ f <> g ->
          snd (run (S depth) cls [Put x f v; Put y g w] h)
          = snd (run (S depth) cls [Put y g w; Put x f v] h))
       /\ (is_non_negative w = true ->
           snd (run (S depth) cls [Put x f v; Put x f w] h)
           = snd (run (S depth) cls [Put x f w] h)).
Proof.
  destruct (notebook_classes_defined h0) as (A & B & h & Hrun & Hobjs & HA & HB).
  exists A, B, h. split; [exact Hrun |].
  intros cls Hcls.
  assert (score_class cls h) as Hc by (destruct Hcls as [-> | ->]; assumption).
  rewrite !(run_on_objs _ _ _ _ Hc). cbn [snd]. split.
  - intros Hne. now rewrite (Slots_puts_commute x y f g v w _ Hne).
  - intros Hw. now rewrite (Slots_last_put_wins x f v w _ (is_non_negative_passes _ Hw)).
Qed.


Lemma call_class_function mro depth l name q f args d h :
  find_attr mro name = Some (CFunction q f) ->
  objs h !! l = Some d ->
  d !! name = None ->
  call (instance_of (S depth) mro l) name args h = f (instance_of depth mro l) args h.
Proof.
  intros Hf Hl Hn. rewrite call_S. unfold call_. rewrite Hf.
  unfold bind, instance_dict. now rewrite ref_instance_of, Hl, Hn.
Qed.

Lemma call_Mapping_update mro depth l name q xs items acc d h :
  find_attr mro name = Some (CFunction q Mapping.update) ->
  find_attr mro "items_list" = None ->
  objs h !! l = Some d ->
  d !! name = None ->
  d !! "items_list" = Some (VList acc) ->
  to_list xs = Some items ->
  call (instance_of (S (S depth)) mro l) name [xs] h
  = (inr VNone, with_dict h l (<["items_list" := VList (acc ++ items)]> d)).
Proof.
  intros Hf Hi Hl Hn Hd Hxs. rewrite (call_class_function _ _ _ _ _ _ _ _ _ Hf Hl Hn).
  unfold Mapping.update, bind at 1, iter. rewrite Hxs. unfold ret at 1.
  unfold bind at 1. rewrite (for_each_append mro depth l items h d acc Hi Hl Hd).
  reflexivity.
Qed.

Lemma leaves_items_with_dict mro depth l h d d' items :
  find_attr mro "items_list" = None ->
  objs h !! l = Some d ->
  leaves_items (instance_of (S depth) mro l)
    (inr VNone, with_dict h l (<["items_list" := VList items]> d')) items.
Proof.
  intros Hf Hl. split; [reflexivity |]. cbn [snd].
  eapply getattr_from_dict; [exact Hf | eapply with_dict_lookup; eauto |].
  apply lookup_insert_eq.
Qed.

(** X15. [update] appends to what the instance already holds: when [xs] differs from
    the list of the instance (so it is not that list itself) and no item of
    [xs] is, or holds, a list, [m.update(xs)] returns [None] and [items_list]
    then reads as the old list followed by [list(xs)].  The private copy
    [_Mapping__update] does the same, on an instance of [Mapping] and on an
    instance of [MappingSubclass]. *)
Theorem Mapping_update_appends (depth l : nat) (xs : val) (items acc : list val)
    (d : gmap string val) (h : heap) :
  let m := instance_of (S (S depth)) Mapping.mro l in
  let ms := instance_of (S (S depth)) MappingSubclass.mro l in
  objs h !! l = Some d ->
  d !! "update" = None ->
  d !! "_Mapping__update" = None ->
  d !! "items_list" = Some (VList acc) ->
  to_list xs = Some items ->
  apart_from acc xs items ->
  leaves_items m (call m "update" [xs] h) (acc ++ items)
  /\ leaves_items m (call m "_Mapping__update" [xs] h) (acc ++ items)
  /\ leaves_items ms (call ms "_Mapping__update" [xs] h) (acc ++ items).
Proof.
  intros m ms Hl Hu Hm Hd Hxs _. subst m ms.
  rewrite (call_Mapping_update Mapping.mro depth l "update" _ xs items acc d h
             eq_refl eq_refl Hl Hu Hd Hxs).
  rewrite (call_Mapping_update Mapping.mro depth l "_Mapping__update" _ xs items acc d h
             eq_refl eq_refl Hl Hm Hd Hxs).
  rewrite (call_Mapping_update MappingSubclass.mro depth l "_Mapping__update" _ xs items
             acc d h eq_refl eq_refl Hl Hm Hd Hxs).
  repeat split; cbn [snd];
    (eapply getattr_from_dict;
     [reflexivity | eapply with_dict_lookup; eauto | apply lookup_insert_eq]).
Qed.

(** X16. Two calls of [Mapping.update] in a row, [m.update(xs)] then [m.update(ys)],
    leave in [items_list] the old list, then the items of [xs], then those of
    [ys], which is what one call with a tuple of the items of both leaves,
    when each argument differs from the list of the instance at the time of
    its call and no item of either is, or holds, a list. *)
Theorem Mapping_updates_concatenate (depth l : nat) (xs ys : val)
    (items items' acc : list val) (d : gmap string val) (h : heap) :
  let m := instance_of (S (S depth)) Mapping.mro l in
  objs h !! l = Some d ->
  d !! "update" = None ->
  d !! "items_list" = Some (VList acc) ->
  to_list xs = Some items ->
  to_list ys = Some items' ->
  apart_from acc xs items ->
  apart_from (acc ++ items) ys items' ->
  leaves_items m (call m "update" [xs] h) (acc ++ items)
  /\ leaves_items m (call m "update" [ys] (snd (call m "update" [xs] h)))
       (acc ++ items ++ items')
  /\ leaves_items m (call m "update" [VTuple (items ++ items')] h)
       (acc ++ items ++ items').
Proof.
  intros m Hl Hu Hd Hxs Hys _ _. subst m.
  rewrite (call_Mapping_update Mapping.mro depth l "update" _ xs items acc d h
             eq_refl eq_refl Hl Hu Hd Hxs).
  cbn [snd].
  rewrite (call_Mapping_update Mapping.mro depth l "update" _ ys items' (acc ++ items)
             (<["items_list" := VList (acc ++ items)]> d) _
             eq_refl eq_refl (with_dict_lookup _ _ _ _ Hl));
    [| now rewrite lookup_insert_ne | apply lookup_insert_eq | exact Hys].
  rewrite (call_Mapping_update Mapping.mro depth l "update" _ (VTuple (items ++ items'))
             (items ++ items') acc d h eq_refl eq_refl Hl Hu Hd eq_refl).
  rewrite with_dict_twice, <- app_assoc.
  split; [| split]; (eapply leaves_items_with_dict; [reflexivity | exact Hl]).
Qed.

Lemma zip__length ks vs : length (zip_ ks vs) = Nat.min (length ks) (length vs).
Proof. unfold zip_. now rewrite length_map, length_zip. Qed.

Lemma zip__lookup ks vs i k v :
  ks !! i = Some k -> vs !! i = Some v -> zip_ ks vs !! i = Some (VTuple [k; v]).
Proof.
  intros Hk Hv. unfold zip_. rewrite list_lookup_fmap.
  rewrite (proj2 (lookup_zip_with_Some pair ks vs i (k, v))); [reflexivity |].
  eauto.
Qed.

(** X17. [MappingSubclass.update(keys, values)] appends the pairs [(key, value)] in
    order, as many as the shorter of the two sequences has, when each argument
    differs from the list of the instance (so it is not that list itself) and
    no item of either is, or holds, a list. *)
Theorem MappingSubclass_update_zips (depth l : nat) (keys values : val)
    (ks vs acc : list val) (d : gmap string val) (h : heap) :
  let ms := instance_of (S (S depth)) MappingSubclass.mro l in
  objs h !! l = Some d ->
  d !! "update" = None ->
  d !! "items_list" = Some (VList acc) ->
  to_list keys = Some ks ->
  to_list values = Some vs ->
  apart_from acc keys ks ->
  apart_from acc values vs ->
  leaves_items ms (call ms "update" [keys; values] h) (acc ++ zip_ ks vs)
  /\ length (zip_ ks vs) = Nat.min (length ks) (length vs)
  /\ (forall i k v, ks !! i = Some k -> vs !! i = Some v ->
        zip_ ks vs !! i = Some (VTuple [k; v])).
Proof.
  intros ms Hl Hu Hd Hks Hvs _ _. subst ms. split; [| split].
  - rewrite (call_class_function MappingSubclass.mro _ _ "update" _ _ _ _ _ eq_refl Hl Hu).
    unfold MappingSubclass.update, bind at 1, iter. rewrite Hks. unfold ret at 1.
    unfold bind at 1. rewrite Hvs. unfold ret at 1. unfold bind at 1.
    rewrite (for_each_append MappingSubclass.mro depth l (zip_ ks vs) h d acc
               eq_refl Hl Hd).
    eapply leaves_items_with_dict; [reflexivity | exact Hl].
  - apply zip__length.
  - apply zip__lookup.
Qed.

(** X18. A call of [update] that fails changes nothing: with an argument that is not
    iterable, or a wrong number of arguments, [Mapping.update] and
    [MappingSubclass.update] raise [TypeError] before any item is appended. *)
Theorem update_failures_change_nothing (depth l : nat) (args : list val)
    (d : gmap string val) (h : heap) :
  let m := instance_of (S (S depth)) Mapping.mro l in
  let ms := instance_of (S (S depth)) MappingSubclass.mro l in
  objs h !! l = Some d ->
  d !! "update" = None ->
  (forall xs, args = [xs] -> to_list xs = None ->
     call m "update" args h = (inl (TypeError "object is not iterable"), h))
  /\ (length args <> 1%nat ->
      call m "update" args h
      = (inl (TypeError "update() takes 2 positional arguments"), h))
  /\ (forall keys values, args = [keys; values] ->
        to_list keys = None \/ to_list values = None ->
        call ms "update" args h = (inl (TypeError "object is not iterable"), h))
  /\ (length args <> 2%nat ->
      call ms "update" args h
      = (inl (TypeError "update() takes 3 positional arguments"), h)).
Proof.
  intros m ms Hl Hu. subst m ms.
  assert (forall mro f q, find_attr mro "update" = Some (CFunction q f) ->
            call (instance_of (S (S depth)) mro l) "update" args h
            = f (instance_of (S depth) mro l) args h) as Hcall.
  { intros mro f q Hf. eapply call_class_function; eauto. }
  repeat split.
  - intros xs -> Hxs. rewrite (Hcall Mapping.mro _ _ eq_refl).
    unfold Mapping.update, bind, iter. now rewrite Hxs.
  - intros Hlen. rewrite (Hcall Mapping.mro _ _ eq_refl). unfold Mapping.update.
    destruct args as [| a [| b args]]; try reflexivity. now destruct Hlen.
  - intros keys values -> Hnone. rewrite (Hcall MappingSubclass.mro _ _ eq_refl).
    unfold MappingSubclass.update, bind, iter.
    destruct (to_list keys) as [ks |]; [| reflexivity].
    destruct Hnone as [Hk | Hv]; [discriminate | now rewrite Hv].
  - intros Hlen. rewrite (Hcall MappingSubclass.mro _ _ eq_refl).
    unfold MappingSubclass.update.
    destruct args as [| a [| b [| c args]]]; try reflexivity. now destruct Hlen.
Qed.


Lemma append_length s n : String.length (s +:+ n) = (String.length s + String.length n)%nat.
Proof.
  induction s as [| a s IH]; [reflexivity |].
  change (String a s +:+ n) with (String a (s +:+ n)). cbn [String.length]. rewrite IH. reflexivity.
Qed.

Lemma append_inv_tail n : forall s1 s2, s1 +:+ n = s2 +:+ n -> s1 = s2.
Proof.
  induction s1 as [| a s1 IH]; intros [| b s2] H.
  - reflexivity.
  - apply (f_equal String.length) in H. rewrite !append_length in H. cbn in H. lia.
  - apply (f_equal String.length) in H. rewrite !append_length in H. cbn in H. lia.
  - change (String a (s1 +:+ n) = String b (s2 +:+ n)) in H.
    injection H as -> H. f_equal. now apply IH.
Qed.

Lemma strip_underscores_head c : forall a s,
  strip_underscores c = String a s -> a <> "_"%char.
Proof.
  induction c as [| x c IH]; intros a s H; [discriminate |].
  destruct (ascii_dec x "_") as [-> | Hx].
  - cbn in H. eauto.
  - assert (strip_underscores (String x c) = String x c) as E.
    { destruct x as [[] [] [] [] [] [] [] []]; try reflexivity. now destruct Hx. }
    rewrite E in H. injection H as <- _. exact Hx.
Qed.

Lemma mangle_private c a s n :
  is_private n = true -> strip_underscores c = String a s ->
  mangle c n = "_" +:+ String a s +:+ n.
Proof. unfold is_private, mangle. intros -> ->. reflexivity. Qed.

Lemma mangle_not_private c n : is_private n = false -> mangle c n = n.
Proof. intros H. unfold mangle. fold (is_private n). now rewrite H. Qed.

Lemma mangled_is_not_private a s n :
  a <> "_"%char -> is_private ("_" +:+ String a s +:+ n) = false.
Proof.
  intros Ha. unfold is_private.
  change ("_" +:+ String a s +:+ n) with (String "_" (String a (s +:+ n))).
  assert (String.prefix "__" (String "_" (String a (s +:+ n))) = false) as ->; [| reflexivity].
  destruct a as [[] [] [] [] [] [] [] []]; try reflexivity. now destruct Ha.
Qed.

(** X19. Name mangling keeps the private names of different classes apart: a private
    identifier is rewritten to different names in two classes whose names
    differ once leading underscores are removed; a name that is already
    mangled, and any name that is not private, is left as it is. *)
Theorem private_names_do_not_collide (c1 c2 n : string) :
  mangle c1 (mangle c1 n) = mangle c1 n
  /\ (is_private n = true ->
      strip_underscores c1 <> "" -> strip_underscores c2 <> "" ->
      strip_underscores c1 <> strip_underscores c2 ->
      mangle c1 n <> mangle c2 n)
  /\ (is_private n = false -> mangle c1 n = n).
Proof.
  split; [| split].
  - destruct (is_private n) eqn:Hp; cycle 1.
    { now rewrite !(mangle_not_private c1 n Hp). }
    destruct (strip_underscores c1) as [| a s] eqn:Hs.
    { assert (mangle c1 n = n) as E.
      { unfold mangle. fold (is_private n). now rewrite Hp, Hs. }
      now rewrite !E. }
    rewrite (mangle_private _ _ _ _ Hp Hs).
    apply mangle_not_private, mangled_is_not_private.
    eapply strip_underscores_head; eauto.
  - intros Hp H1 H2 Hne.
    destruct (strip_underscores c1) as [| a s] eqn:Hs1; [now destruct H1 |].
    destruct (strip_underscores c2) as [| b t] eqn:Hs2; [now destruct H2 |].
    rewrite (mangle_private _ _ _ _ Hp Hs1), (mangle_private _ _ _ _ Hp Hs2).
    intros E.
    change (String "_" (String a (s +:+ n)) = String "_" (String b (t +:+ n))) in E.
    injection E as E1 E2. subst b.
    apply append_inv_tail in E2. congruence.
  - apply mangle_not_private.
Qed.


Lemma read_attr_A depth l name d h :
  objs h !! l = Some d ->
  read_attr Shadowing.A.mro (instance_of depth Shadowing.A.mro l) name h
  = (inr match d !! name with
         | Some v => v
         | None =>
             if String.eqb "__module__" name then VStr "__main__"
             else if String.eqb "y" name then VInt 2
             else if String.eqb "__getattr__" name then VMethod "A.__getattr__" l
             else if String.eqb "__doc__" name then VNone
             else if String.eqb "x" name then VInt 1
             else VStr name
         end, h).
Proof.
  intros Hl. unfold read_attr, getattr_.
  cbn [find_attr Shadowing.A.mro Shadowing.A.cls Shadowing.B.cls k_dict dict_lookup].
  destruct (String.eqb "__module__" name) eqn:Em;
    [| destruct (String.eqb "y" name) eqn:Ey;
       [| destruct (String.eqb "__getattr__" name) eqn:Eg;
          [| destruct (String.eqb "__doc__" name) eqn:Ed;
             [| destruct (String.eqb "x" name) eqn:Ex]]]];
    unfold bind, instance_dict, ret, raise; rewrite ref_instance_of, Hl;
    destruct (d !! name); try reflexivity.
Qed.

Lemma not_special_cases name :
  is_special name = false ->
  String.eqb "__module__" name = false
  /\ String.eqb "__getattr__" name = false
  /\ String.eqb "__doc__" name = false.
Proof.
  intros H. repeat split.
  all: match goal with
       | |- String.eqb ?k ?n = false =>
           destruct (String.eqb_spec k n) as [<- |]; [discriminate H | reflexivity]
       end.
Qed.

(** X20. Reads on an instance of the class [A] of the lookup example, for a name that
    is not of the form [__x__]: an entry of the instance [__dict__] is returned
    before anything of the class; without one, [y] is the [2] of [A] and [x]
    the [1] inherited from [B]; any other such name falls to [__getattr__] and
    reads as the name itself, so no such read raises [AttributeError].  Of the
    names [__x__], [__doc__] and [__module__] are found in the class [__dict__]
    and do not reach [__getattr__]. *)
Theorem A_attribute_reads (depth l : nat) (name : string) (d : gmap string val)
    (h : heap) :
  let a := instance_of depth Shadowing.A.mro l in
  objs h !! l = Some d ->
  is_special name = false ->
  (forall v, d !! name = Some v -> read_attr Shadowing.A.mro a name h = (inr v, h))
  /\ (d !! "y" = None -> read_attr Shadowing.A.mro a "y" h = (inr (VInt 2), h))
  /\ (d !! "x" = None -> read_attr Shadowing.A.mro a "x" h = (inr (VInt 1), h))
  /\ (d !! name = None -> name <> "y" -> name <> "x" ->
      read_attr Shadowing.A.mro a name h = (inr (VStr name), h))
  /\ (d !! "__doc__" = None ->
      read_attr Shadowing.A.mro a "__doc__" h = (inr VNone, h))
  /\ (d !! "__module__" = None ->
      read_attr Shadowing.A.mro a "__module__" h = (inr (VStr "__main__"), h)).
Proof.
  intros a Hl Hs. subst a.
  destruct (not_special_cases name Hs) as (Em & Eg & Ed).
  split; [| split; [| split; [| split; [| split]]]].
  - intros v Hv. rewrite (read_attr_A _ _ _ _ _ Hl), Hv. reflexivity.
  - intros Hy. rewrite (read_attr_A _ _ _ _ _ Hl), Hy. reflexivity.
  - intros Hx. rewrite (read_attr_A _ _ _ _ _ Hl), Hx. reflexivity.
  - intros Hn Hy Hx. rewrite (read_attr_A _ _ _ _ _ Hl), Hn, Em, Eg, Ed.
    destruct (String.eqb_spec "y" name); [congruence |].
    destruct (String.eqb_spec "x" name); [congruence |]. reflexivity.
  - intros Hn. rewrite (read_attr_A _ _ _ _ _ Hl), Hn. reflexivity.
  - intros Hn. rewrite (read_attr_A _ _ _ _ _ Hl), Hn. reflexivity.
Qed.

Lemma setattr_A depth l name v h d :
  objs h !! l = Some d ->
  setattr (instance_of (S depth) Shadowing.A.mro l) name v h
  = (inr tt, with_dict h l (<[name := v]> d)).
Proof.
  intros Hl. rewrite setattr_S. unfold setattr_.
  cbn [find_attr Shadowing.A.mro Shadowing.A.cls Shadowing.B.cls k_dict dict_lookup].
  destruct (String.eqb "__module__" name);
    [| destruct (String.eqb "y" name);
       [| destruct (String.eqb "__getattr__" name);
          [| destruct (String.eqb "__doc__" name);
             [| destruct (String.eqb "x" name)]]]];
    rewrite ref_instance_of; now apply dict_setitem_ok.
Qed.

(** X21. An assignment [a.name = v] on an instance of [A], for a name that is not of
    the form [__x__], goes to the instance [__dict__] and shadows the class
    attribute for that instance only: the value is read back from it, its
    other attributes read as before, and the other instances still read what
    they read before (the attributes read being again those not of the form
    [__x__]). *)
Theorem A_instance_attribute_shadows_class (depth l l' : nat) (name : string)
    (v : val) (d d' : gmap string val) (h : heap) :
  let a := instance_of (S depth) Shadowing.A.mro l in
  let a' := instance_of (S depth) Shadowing.A.mro l' in
  let h' := with_dict h l (<[name := v]> d) in
  objs h !! l = Some d ->
  objs h !! l' = Some d' ->
  l' <> l ->
  is_special name = false ->
  setattr a name v h = (inr tt, h')
  /\ read_attr Shadowing.A.mro a name h' = (inr v, h')
  /\ (forall other, is_special other = false -> other <> name ->
        fst (read_attr Shadowing.A.mro a other h') = fst (read_attr Shadowing.A.mro a other h))
  /\ (forall other, is_special other = false ->
        fst (read_attr Shadowing.A.mro a' other h')
        = fst (read_attr Shadowing.A.mro a' other h)).
Proof.
  intros a a' h' Hl Hl' Hne _. subst a a'.
  assert (objs h' !! l = Some (<[name := v]> d)) as H1.
  { eapply with_dict_lookup; eauto. }
  assert (objs h' !! l' = Some d') as H2.
  { unfold h', with_dict. cbn [objs]. now rewrite list_lookup_insert_ne. }
  repeat split.
  - now apply setattr_A.
  - rewrite (read_attr_A _ _ _ _ _ H1), lookup_insert_eq. reflexivity.
  - intros other _ Ho.
    rewrite (read_attr_A _ _ _ _ _ H1), (read_attr_A _ _ _ _ _ Hl).
    now rewrite lookup_insert_ne.
  - intros other _. now rewrite (read_attr_A _ _ _ _ _ H2), (read_attr_A _ _ _ _ _ Hl').
Qed.

(** ** The properties at sample data *)

Lemma NonNegativeField_unset_field_sample :
  find_attr [notebook_A] "points" = Some (CField 0)
  /\ descs blank_heap !! 0%nat = Some {| field := "points" |}
  /\ objs blank_heap !! 0%nat = Some ∅
  /\ (∅ : gmap string val) !! "points" = None
  /\ getattr (instance_of 1 [notebook_A] 0) "points" blank_heap
     = (inl (KeyError "points"), blank_heap).
Proof.
  repeat (split; [vm_compute; reflexivity |]).
  apply (NonNegativeField_unset_field_raises_KeyError [notebook_A] "points" 0
           {| field := "points" |} 0 0 ∅ blank_heap);
    vm_compute; reflexivity.
Defined.

Lemma named_descriptors_names_fields_sample :
  fields_allocated (k_dict (fst undecorated_B)) (snd undecorated_B)
  /\ exists ds,
       named_descriptors (fst undecorated_B) (snd undecorated_B)
       = (inr (fst undecorated_B), {| descs := ds; objs := objs (snd undecorated_B) |})
       /\ length ds = length (descs (snd undecorated_B))
       /\ forall r, ds !! r
                    = match last_binding (k_dict (fst undecorated_B)) r with
                      | Some name =>
                          (fun _ => {| field := name |}) <$> descs (snd undecorated_B) !! r
                      | None => descs (snd undecorated_B) !! r
                      end.
Proof.
  assert (fields_allocated (k_dict (fst undecorated_B)) (snd undecorated_B)) as H
    by (unfold fields_allocated; vm_compute; repeat constructor).
  split; [exact H |].
  exact (named_descriptors_names_fields (fst undecorated_B) (snd undecorated_B) H).
Defined.

Lemma named_descriptors_idempotent_sample :
  fields_allocated (k_dict (fst undecorated_B)) (snd undecorated_B)
  /\ exists h',
       named_descriptors (fst undecorated_B) (snd undecorated_B)
       = (inr (fst undecorated_B), h')
       /\ named_descriptors (fst undecorated_B) h' = (inr (fst undecorated_B), h').
Proof.
  assert (fields_allocated (k_dict (fst undecorated_B)) (snd undecorated_B)) as H
    by (unfold fields_allocated; vm_compute; repeat constructor).
  split; [exact H |].
  exact (named_descriptors_idempotent (fst undecorated_B) (snd undecorated_B) H).
Defined.

Lemma fields_share_storage_sample :
  find_attr [fst undecorated_B] "points" = Some (CField 0)
  /\ descs undecorated_heap !! 0%nat = Some {| field := "" |}
  /\ find_attr [fst undecorated_B] "rebounds" = Some (CField 1)
  /\ descs undecorated_heap !! 1%nat = Some {| field := "" |}
  /\ objs undecorated_heap !! 0%nat = Some ∅
  /\ is_non_negative (VInt 7) = true
  /\ getattr (instance_of 1 [fst undecorated_B] 0) "rebounds"
       (snd (setattr (instance_of 1 [fst undecorated_B] 0) "points" (VInt 7)
               undecorated_heap))
     = (inr (VInt 7),
        snd (setattr (instance_of 1 [fst undecorated_B] 0) "points" (VInt 7)
               undecorated_heap)).
Proof.
  repeat (split; [vm_compute; reflexivity |]).
  apply (fields_share_storage_by_name [fst undecorated_B] "points" "rebounds" 0 1
           {| field := "" |} {| field := "" |} 0 0 ∅ (VInt 7) undecorated_heap);
    vm_compute; reflexivity.
Defined.

Lemma undecorated_fields_collide_sample :
  is_non_negative (VInt 100) = true
  /\ is_non_negative (VInt 30) = true
  /\ is_non_negative (VInt 10) = true
  /\ exists B h,
       BasketballGameB.body empty_heap = (inr B, h)
       /\ fst (new 1 [B] [VInt 100; VInt 30; VInt 10] h) = inr 0%nat
       /\ objs (snd (new 1 [B] [VInt 100; VInt 30; VInt 10] h)) = [{["" := VInt 10]}]
       /\ forall f,
            getattr (instance_of 1 [B] 0) (score_name f)
              (snd (new 1 [B] [VInt 100; VInt 30; VInt 10] h))
            = (inr (VInt 10), snd (new 1 [B] [VInt 100; VInt 30; VInt 10] h)).
Proof.
  repeat (split; [reflexivity |]).
  exact (undecorated_fields_collide 0 empty_heap (VInt 100) (VInt 30) (VInt 10)
           eq_refl eq_refl eq_refl).
Defined.

Lemma BasketballGame_set_then_get_sample :
  objs basketball_heap !! 0%nat = Some basketball_dict
  /\ is_non_negative (VInt 7) = true
  /\ getattr (instance_of 2 BasketballGame.mro 0) "points"
       (with_dict basketball_heap 0 (<["_points" := VInt 7]> basketball_dict))
     = (inr (VInt 7),
        with_dict basketball_heap 0 (<["_points" := VInt 7]> basketball_dict)).
Proof.
  repeat (split; [vm_compute; reflexivity |]).
  apply (BasketballGame_set_then_get 0 0 Points (VInt 7) basketball_dict basketball_heap);
    vm_compute; reflexivity.
Defined.

Lemma BasketballGame_unset_and_delete_sample :
  objs two_instances !! 0%nat = Some ∅
  /\ delattr (instance_of 2 BasketballGame.mro 0) "points" two_instances
     = (inl (AttributeError "can't delete attribute"), two_instances).
Proof.
  split; [reflexivity |].
  apply (BasketballGame_unset_and_delete 0 0 Points ∅ two_instances). reflexivity.
Defined.

Lemma BasketballGame_private_attribute_sample :
  objs basketball_heap !! 0%nat = Some basketball_dict
  /\ getattr (instance_of 2 BasketballGame.mro 0) "points"
       (with_dict basketball_heap 0 (<["_points" := VInt (-5)]> basketball_dict))
     = (inr (VInt (-5)),
        with_dict basketball_heap 0 (<["_points" := VInt (-5)]> basketball_dict)).
Proof.
  split; [vm_compute; reflexivity |].
  apply (BasketballGame_private_attribute_unchecked 0 0 Points (VInt (-5))
           basketball_dict basketball_heap).
  vm_compute; reflexivity.
Defined.

Lemma Mapping_update_appends_sample :
  objs mapping_heap !! 0%nat = Some mapping_dict
  /\ mapping_dict !! "update" = None
  /\ mapping_dict !! "_Mapping__update" = None
  /\ mapping_dict !! "items_list" = Some (VList [VInt 1; VInt 2])
  /\ to_list (ints [3; 4]) = Some [VInt 3; VInt 4]
  /\ apart_from [VInt 1; VInt 2] (ints [3; 4]) [VInt 3; VInt 4]
  /\ leaves_items (instance_of 2 Mapping.mro 0)
       (call (instance_of 2 Mapping.mro 0) "update" [ints [3; 4]] mapping_heap)
       ([VInt 1; VInt 2] ++ [VInt 3; VInt 4]).
Proof.
  repeat (split; [vm_compute; reflexivity |]).
  split; [split; [discriminate | reflexivity] |].
  apply (Mapping_update_appends 0 0 (ints [3; 4]) [VInt 3; VInt 4] [VInt 1; VInt 2]
           mapping_dict mapping_heap);
    try (vm_compute; reflexivity).
  split; [discriminate | reflexivity].
Defined.

Lemma Mapping_updates_concatenate_sample :
  objs mapping_heap !! 0%nat = Some mapping_dict
  /\ mapping_dict !! "update" = None
  /\ mapping_dict !! "items_list" = Some (VList [VInt 1; VInt 2])
  /\ to_list (ints [3]) = Some [VInt 3]
  /\ to_list (VStr "ab") = Some [VStr "a"; VStr "b"]
  /\ apart_from [VInt 1; VInt 2] (ints [3]) [VInt 3]
  /\ apart_from ([VInt 1; VInt 2] ++ [VInt 3]) (VStr "ab") [VStr "a"; VStr "b"]
  /\ leaves_items (instance_of 2 Mapping.mro 0)
       (call (instance_of 2 Mapping.mro 0) "update" [VStr "ab"]
          (snd (call (instance_of 2 Mapping.mro 0) "update" [ints [3]] mapping_heap)))
       ([VInt 1; VInt 2] ++ [VInt 3] ++ [VStr "a"; VStr "b"]).
Proof.
  repeat (split; [vm_compute; reflexivity |]).
  split; [split; [discriminate | reflexivity] |].
  split; [split; [discriminate | reflexivity] |].
  apply (Mapping_updates_concatenate 0 0 (ints [3]) (VStr "ab") [VInt 3]
           [VStr "a"; VStr "b"] [VInt 1; VInt 2] mapping_dict mapping_heap);
    try (vm_compute; reflexivity);
    (split; [discriminate | reflexivity]).
Defined.

Lemma MappingSubclass_update_zips_sample :
  objs mapping_heap !! 0%nat = Some mapping_dict
  /\ mapping_dict !! "update" = None
  /\ mapping_dict !! "items_list" = Some (VList [VInt 1; VInt 2])
  /\ to_list (ints [3; 4; 5]) = Some [VInt 3; VInt 4; VInt 5]
  /\ to_list (VTuple [VStr "three"; VStr "four"]) = Some [VStr "three"; VStr "four"]
  /\ apart_from [VInt 1; VInt 2] (ints [3; 4; 5]) [VInt 3; VInt 4; VInt 5]
  /\ apart_from [VInt 1; VInt 2] (VTuple [VStr "three"; VStr "four"])
       [VStr "three"; VStr "four"]
  /\ leaves_items (instance_of 2 MappingSubclass.mro 0)
       (call (instance_of 2 MappingSubclass.mro 0) "update"
          [ints [3; 4; 5]; VTuple [VStr "three"; VStr "four"]] mapping_heap)
       ([VInt 1; VInt 2] ++ zip_ [VInt 3; VInt 4; VInt 5] [VStr "three"; VStr "four"]).
Proof.
  repeat (split; [vm_compute; reflexivity |]).
  split; [split; [discriminate | reflexivity] |].
  split; [split; [discriminate | reflexivity] |].
  apply (MappingSubclass_update_zips 0 0 (ints [3; 4; 5])
           (VTuple [VStr "three"; VStr "four"]) [VInt 3; VInt 4; VInt 5]
           [VStr "three"; VStr "four"] [VInt 1; VInt 2] mapping_dict mapping_heap);
    try (vm_compute; reflexivity);
    (split; [discriminate | reflexivity]).
Defined.

Lemma update_failures_sample :
  objs mapping_heap !! 0%nat = Some mapping_dict
  /\ mapping_dict !! "update" = None
  /\ call (instance_of 2 Mapping.mro 0) "update" [VInt 5] mapping_heap
     = (inl (TypeError "object is not iterable"), mapping_heap).
Proof.
  repeat (split; [vm_compute; reflexivity |]).
  apply (update_failures_change_nothing 0 0 [VInt 5] mapping_dict mapping_heap
           eq_refl eq_refl) with (xs := VInt 5);
    reflexivity.
Defined.

Lemma A_attribute_reads_sample :
  objs two_instances !! 0%nat = Some ∅
  /\ is_special "z" = false
  /\ read_attr Shadowing.A.mro (instance_of 1 Shadowing.A.mro 0) "z" two_instances
     = (inr (VStr "z"), two_instances).
Proof.
  split; [reflexivity |]. split; [reflexivity |].
  apply (A_attribute_reads 1 0 "z" ∅ two_instances eq_refl eq_refl);
    [reflexivity | discriminate ..].
Defined.

Lemma A_instance_attribute_shadows_sample :
  objs two_instances !! 0%nat = Some ∅
  /\ objs two_instances !! 1%nat = Some ∅
  /\ 1%nat <> 0%nat
  /\ is_special "y" = false
  /\ read_attr Shadowing.A.mro (instance_of 1 Shadowing.A.mro 0) "y"
       (with_dict two_instances 0 (<["y" := VInt 3]> ∅))
     = (inr (VInt 3), with_dict two_instances 0 (<["y" := VInt 3]> ∅)).
Proof.
  split; [reflexivity |]. split; [reflexivity |]. split; [discriminate |].
  split; [reflexivity |].
  apply (A_instance_attribute_shadows_class 0 0 1 "y" (VInt 3) ∅ ∅ two_instances);
    [reflexivity | reflexivity | discriminate | reflexivity].
Defined.
